(** * metadata: a codec between tagged struct fields and Kubernetes labels/annotations

    Shallow embedding of [metadata.go] (package [metadata]) and a verification of
    its specification.  The Go functions [Unmarshal], [Marshal], [parseValue],
    [handleSlice] and the [parseXs] helpers are translated one by one; the
    standard-library functions they call ([strconv], [strings], [time], [fmt],
    [reflect]) are modelled next to them, byte for byte where they work on
    integers and strings.

    Conventions of the model.
    - A Go [string] is a Rocq [string] (a sequence of bytes).
    - Fixed-width integers are [Z]; wrap-around is written out where the Go code
      can wrap.
    - [float64] values are [spec_float] (binary64: precision 53, emax 1024).
      The decimal parsers and printers of floating-point and complex numbers
      ([strconv.ParseFloat], [strconv.ParseComplex], the [%v] rendering of
      [fmt]) are taken as an interface, [FloatConv].
    - [map[string]string] is [gmap string string]; a nil map is [None].
    - A struct is the list of its fields in declaration order, each with its
      static description ([reflect.StructField]) and its current value.
      Tagged fields are exported, so that [reflect] lets the codec set them and
      [fmt] sees their methods; defined types other than [time.Duration] carry
      no formatting method.  The two maps of an [ObjectMeta] are two distinct
      map objects. *)

From Stdlib Require Import ZArith Lia Ascii SpecFloat.
From stdpp Require Import gmap strings list.

Local Open Scope Z_scope.
#[local] Set Warnings "-register-all".

(** ** Bytes and strings *)

Definition byte (c : ascii) : Z := Z.of_N (N_of_ascii c).

Definition chr (b : Z) : ascii := ascii_of_N (Z.to_N b).

(** ['0' <= c && c <= '9'] *)
Definition isDigit (c : ascii) : bool := (48 <=? byte c) && (byte c <=? 57).

(** [s == t] on Go strings. *)
Definition streq (s t : string) : bool := bool_decide (s = t).

Fixpoint hasPrefix (s p : string) : bool :=
  match p, s with
  | EmptyString, _ => true
  | String a p', String b s' => bool_decide (a = b) && hasPrefix s' p'
  | String _ _, EmptyString => false
  end.

(** [strings.Split(s, sep)] for a non-empty [sep]: the substrings between the
    non-overlapping occurrences of [sep], scanned from the left.  [cur] holds
    the bytes of the current piece in reverse, [skip] the bytes of a matched
    separator still to be dropped.  (For the empty separator Go explodes [s]
    into its UTF-8 sequences; [handleSlice] never passes it.) *)
Fixpoint Split_go (sep : string) (skip : nat) (cur : string) (s : string) : list string :=
  match s with
  | EmptyString => [String.rev cur]
  | String c s' =>
      match skip with
      | S k => Split_go sep k cur s'
      | O =>
          if hasPrefix s sep
          then String.rev cur :: Split_go sep (String.length sep - 1)%nat EmptyString s'
          else Split_go sep O (String c cur) s'
      end
  end.

Definition strings_Split (s sep : string) : list string :=
  match sep with
  | EmptyString => (fun c => String c EmptyString) <$> String.list_ascii_of_string s
  | _ => Split_go sep O EmptyString s
  end.

(** [strings.Join(elems, sep)] *)
Fixpoint strings_Join (elems : list string) (sep : string) : string :=
  match elems with
  | [] => ""
  | [e] => e
  | e :: rest => e +:+ sep +:+ strings_Join rest sep
  end.

(** ** strconv *)

(** [strconv.ParseBool]: [None] stands for the syntax error. *)
Definition ParseBool (str : string) : option bool :=
  if existsb (streq str) ["1"; "t"; "T"; "TRUE"; "true"; "True"] then Some true
  else if existsb (streq str) ["0"; "f"; "F"; "FALSE"; "false"; "False"] then Some false
  else None.

(** The two causes of a [*strconv.NumError]. *)
Inductive NumError := ErrSyntax | ErrRange.

Definition maxUint64 : Z := 2 ^ 64 - 1.

(** The digit loop of [strconv.ParseUint] in base 10 (the only base the codec
    uses, so ['_'] and letters are syntax errors).  [n] is the accumulator. *)
Fixpoint ParseUint_loop (bitSize : Z) (s : string) (n : Z) : Z * option NumError :=
  match s with
  | EmptyString => (n, None)
  | String c s' =>
      if negb (isDigit c) then (0, Some ErrSyntax)
      else
        let d := byte c - 48 in
        let cutoff := maxUint64 / 10 + 1 in
        let maxVal := 2 ^ bitSize - 1 in
        if cutoff <=? n then (maxVal, Some ErrRange)
        else
          let n10 := n * 10 in
          let n1 := (n10 + d) mod 2 ^ 64 in
          if (n1 <? n10) || (maxVal <? n1) then (maxVal, Some ErrRange)
          else ParseUint_loop bitSize s' n1
  end.

(** [strconv.ParseUint(s, 10, bitSize)] with [bitSize] in 1..64. *)
Definition ParseUint (s : string) (bitSize : Z) : Z * option NumError :=
  match s with
  | EmptyString => (0, Some ErrSyntax)
  | _ => ParseUint_loop bitSize s 0
  end.

(** [strconv.ParseInt(s, 10, bitSize)] *)
Definition ParseInt (s : string) (bitSize : Z) : Z * option NumError :=
  match s with
  | EmptyString => (0, Some ErrSyntax)
  | String c0 rest =>
      let neg := bool_decide (c0 = "-"%char) in
      let s1 := if bool_decide (c0 = "+"%char) || neg then rest else s in
      let '(un, err) := ParseUint s1 bitSize in
      match err with
      | Some ErrSyntax => (0, err)
      | _ =>
          let cutoff := 2 ^ (bitSize - 1) in
          if negb neg && (cutoff <=? un) then (cutoff - 1, Some ErrRange)
          else if neg && (cutoff <? un) then (- cutoff, Some ErrRange)
          else (if neg then - un else un, None)
      end
  end.

(** Decimal digits of [v], most significant first, prepended to [acc]:
    the loop [for v > 0 { w--; buf[w] = byte(v%10) + '0'; v /= 10 }] shared by
    [strconv.FormatUint], [fmt] and [time.fmtInt].  A value below [2^fuel] is
    consumed entirely. *)
Fixpoint fmtDigits (fuel : nat) (v : Z) (acc : string) : string :=
  match fuel with
  | O => acc
  | S fuel' =>
      if v <=? 0 then acc
      else fmtDigits fuel' (v / 10) (String (chr (v mod 10 + 48)) acc)
  end.

(** [strconv.FormatUint(v, 10)], also [%v] of an unsigned integer. *)
Definition FormatUint (v : Z) : string :=
  if v =? 0 then "0" else fmtDigits 64 v "".

(** [strconv.FormatInt(i, 10)], also [%v] of a signed integer. *)
Definition FormatInt (i : Z) : string :=
  if i <? 0 then String "-" (FormatUint (- i)) else FormatUint i.

(** ** time *)

Definition Nanosecond : Z := 1.
Definition Microsecond : Z := 1000 * Nanosecond.
Definition Millisecond : Z := 1000 * Microsecond.
Definition Second : Z := 1000 * Millisecond.
Definition Minute : Z := 60 * Second.
Definition Hour : Z := 60 * Minute.

(** Conversion of a 64-bit pattern to [int64] (two's complement). *)
Definition int64 (z : Z) : Z := (z + 2 ^ 63) mod 2 ^ 64 - 2 ^ 63.

(** Conversion to [uint64]. *)
Definition uint64 (z : Z) : Z := z mod 2 ^ 64.

(** [time.fmtFrac]: the [prec] low decimal digits of [v] as a fraction,
    trailing zeros dropped, written in front of [buf]; also [v / 10^prec]. *)
Fixpoint fmtFrac_loop (prec : nat) (buf : string) (v : Z) (print : bool) : string * Z * bool :=
  match prec with
  | O => (buf, v, print)
  | S prec' =>
      let digit := v mod 10 in
      let print := print || negb (digit =? 0) in
      fmtFrac_loop prec' (if print then String (chr (digit + 48)) buf else buf) (v / 10) print
  end.

Definition fmtFrac (buf : string) (v : Z) (prec : nat) : string * Z :=
  let '(buf, v, print) := fmtFrac_loop prec buf v false in
  (if print then String "." buf else buf, v).

(** [time.fmtInt]: [v] in decimal in front of [buf]. *)
Definition fmtInt (buf : string) (v : Z) : string :=
  if v =? 0 then String "0" buf else fmtDigits 64 v buf.

(** The two spellings of the micro sign accepted for microseconds:
    U+00B5 (bytes C2 B5) and U+03BC (bytes CE BC). *)
Definition micro_sign : string := String (chr 194) (String (chr 181) "").
Definition greek_mu : string := String (chr 206) (String (chr 188) "").

(** [time.Duration.String] *)
Definition Duration_String (d : Z) : string :=
  let neg := d <? 0 in
  let u := if neg then uint64 (- uint64 d) else uint64 d in
  if u =? 0 then "0s"
  else
    let body :=
      if u <? Second then
        let '(unit, prec) :=
          if u <? Microsecond then ("ns", 0%nat)
          else if u <? Millisecond then (micro_sign +:+ "s", 3%nat)
          else ("ms", 6%nat) in
        let '(buf, u) := fmtFrac unit u prec in
        fmtInt buf u
      else
        let '(buf, u) := fmtFrac "s" u 9 in
        let buf := fmtInt buf (u mod 60) in
        let u := u / 60 in
        if 0 <? u then
          let buf := fmtInt (String "m" buf) (u mod 60) in
          let u := u / 60 in
          if 0 <? u then fmtInt (String "h" buf) u else buf
        else buf in
    if neg then String "-" body else body.

(** [time.unitMap] *)
Definition unitMap : list (string * Z) :=
  [("ns", Nanosecond); ("us", Microsecond); (micro_sign +:+ "s", Microsecond);
   (greek_mu +:+ "s", Microsecond); ("ms", Millisecond); ("s", Second);
   ("m", Minute); ("h", Hour)].

Fixpoint unitMap_lookup (u : string) (m : list (string * Z)) : option Z :=
  match m with
  | [] => None
  | (k, v) :: m' => if streq u k then Some v else unitMap_lookup u m'
  end.

(** [time.leadingInt]: the leading digits of [s] as a number and the rest of
    [s]; [None] when the number passes [1<<63]. *)
Fixpoint leadingInt (s : string) (x : Z) : option (Z * string) :=
  match s with
  | EmptyString => Some (x, s)
  | String c s' =>
      if negb (isDigit c) then Some (x, s)
      else if 2 ^ 63 / 10 <? x then None
      else
        let x := x * 10 + (byte c - 48) in
        if 2 ^ 63 <? x then None else leadingInt s' x
  end.

(** binary64 arithmetic, round to nearest even *)
Definition float64_mul : spec_float -> spec_float -> spec_float := SFmul 53 1024.
Definition float64_div : spec_float -> spec_float -> spec_float := SFdiv 53 1024.

(** [float64(n)] for an unsigned integer [n] *)
Definition float64_of_uint (n : Z) : spec_float := binary_normalize 53 1024 n 0 false.

(** [uint64(x)] for a float [x]: truncation towards zero (used on positive
    values below [2^63] only). *)
Definition uint64_of_float (x : spec_float) : Z :=
  match x with
  | S754_finite false m e => if 0 <=? e then Z.pos m * 2 ^ e else Z.pos m / 2 ^ (- e)
  | _ => 0
  end.

(** [time.leadingFraction]: the leading digits of [s] as the numerator [x] of a
    fraction with denominator [scale]; digits beyond 63 bits are dropped. *)
Fixpoint leadingFraction (s : string) (x : Z) (scale : spec_float) (overflow : bool)
  : Z * spec_float * string :=
  match s with
  | EmptyString => (x, scale, s)
  | String c s' =>
      if negb (isDigit c) then (x, scale, s)
      else if overflow then leadingFraction s' x scale overflow
      else if (2 ^ 63 - 1) / 10 <? x then leadingFraction s' x scale true
      else
        let y := x * 10 + (byte c - 48) in
        if 2 ^ 63 <? y then leadingFraction s' x scale true
        else leadingFraction s' y (float64_mul scale (float64_of_uint 10)) false
  end.

(** The unit of a duration term: the bytes up to the next ['.'] or digit. *)
Fixpoint unitSpan (s : string) : string * string :=
  match s with
  | EmptyString => ("", s)
  | String c s' =>
      if bool_decide (c = "."%char) || isDigit c then ("", s)
      else let '(u, rest) := unitSpan s' in (String c u, rest)
  end.

(** The loop [for s != ""] of [time.ParseDuration]; [d] is the sum so far.
    Every round consumes at least one byte, so [String.length s] rounds of
    [fuel] are enough. [None] stands for any of its errors. *)
Fixpoint ParseDuration_loop (fuel : nat) (s : string) (d : Z) : option Z :=
  match s, fuel with
  | EmptyString, _ => Some d
  | String _ _, O => None
  | String c _, S fuel' =>
      if negb (bool_decide (c = "."%char) || isDigit c) then None
      else
        match leadingInt s 0 with
        | None => None
        | Some (v, s1) =>
            let pre := negb (String.length s =? String.length s1)%nat in
            let '(f, scale, s2, post) :=
              match s1 with
              | String "." s1' =>
                  let '(f, scale, s2) := leadingFraction s1' 0 (float64_of_uint 1) false in
                  (f, scale, s2, negb (String.length s1' =? String.length s2)%nat)
              | _ => (0, float64_of_uint 1, s1, false)
              end in
            if negb pre && negb post then None
            else
              let '(u, s3) := unitSpan s2 in
              if streq u "" then None
              else
                match unitMap_lookup u unitMap with
                | None => None
                | Some unit =>
                    if 2 ^ 63 / unit <? v then None
                    else
                      let v := v * unit in
                      let v :=
                        if 0 <? f
                        then v + uint64_of_float
                                   (float64_mul (float64_of_uint f)
                                      (float64_div (float64_of_uint unit) scale))
                        else v in
                      if (0 <? f) && (2 ^ 63 <? v) then None
                      else
                        let d := uint64 (d + v) in
                        if 2 ^ 63 <? d then None else ParseDuration_loop fuel' s3 d
                end
        end
  end.

(** [time.ParseDuration]: the duration in nanoseconds, [None] on error. *)
Definition ParseDuration (s : string) : option Z :=
  let '(neg, s1) :=
    match s with
    | String c rest =>
        if bool_decide (c = "-"%char) || bool_decide (c = "+"%char)
        then (bool_decide (c = "-"%char), rest) else (false, s)
    | EmptyString => (false, s)
    end in
  if streq s1 "0" then Some 0
  else if streq s1 "" then None
  else
    match ParseDuration_loop (String.length s1) s1 0 with
    | None => None
    | Some d =>
        if neg then Some (int64 (- int64 d))
        else if 2 ^ 63 - 1 <? d then None
        else Some (int64 d)
    end.

(** ** reflect: kinds, types and values *)

Module reflect.
(** [reflect.Kind] *)
Inductive Kind :=
| Invalid | Bool | Int | Int8 | Int16 | Int32 | Int64
| Uint | Uint8 | Uint16 | Uint32 | Uint64 | Uintptr
| Float32 | Float64 | Complex64 | Complex128
| Array | Chan | Func | Interface | Map | Pointer | Slice | String | Struct
| UnsafePointer.
End reflect.

#[global] Instance Kind_eq_dec : EqDecision reflect.Kind.
Proof. solve_decision. Defined.

(** [reflect.Type].  [Plain k] is an unnamed type of kind [k]: the predeclared
    type of a basic kind ([int], [string], ...), or some type literal of a
    composite kind (a struct, a map, ...), of which the codec only observes
    the kind.  [Named n u] is the defined type [n] (printed with its package,
    as in ["time.Duration"]) with underlying type [u]; package names are taken
    to be unique. *)
Inductive GoType :=
| Plain (k : reflect.Kind)
| Named (name : string) (underlying : GoType)
| SliceOf (elem : GoType).

#[global] Instance GoType_eq_dec : EqDecision GoType.
Proof. solve_decision. Defined.

(** [Type.Kind()] *)
Fixpoint Kind_of (t : GoType) : reflect.Kind :=
  match t with
  | Plain k => k
  | Named _ u => Kind_of u
  | SliceOf _ => reflect.Slice
  end.

(** [Kind.String()] *)
Definition Kind_String (k : reflect.Kind) : string :=
  match k with
  | reflect.Invalid => "invalid" | reflect.Bool => "bool"
  | reflect.Int => "int" | reflect.Int8 => "int8" | reflect.Int16 => "int16"
  | reflect.Int32 => "int32" | reflect.Int64 => "int64"
  | reflect.Uint => "uint" | reflect.Uint8 => "uint8" | reflect.Uint16 => "uint16"
  | reflect.Uint32 => "uint32" | reflect.Uint64 => "uint64"
  | reflect.Uintptr => "uintptr"
  | reflect.Float32 => "float32" | reflect.Float64 => "float64"
  | reflect.Complex64 => "complex64" | reflect.Complex128 => "complex128"
  | reflect.Array => "array" | reflect.Chan => "chan" | reflect.Func => "func"
  | reflect.Interface => "interface" | reflect.Map => "map"
  | reflect.Pointer => "ptr" | reflect.Slice => "slice"
  | reflect.String => "string" | reflect.Struct => "struct"
  | reflect.UnsafePointer => "unsafe.Pointer"
  end.

(** [Type.String()]; exact for basic types, defined types and slices of them,
    which is all the codec compares. *)
Fixpoint Type_String (t : GoType) : string :=
  match t with
  | Plain k => Kind_String k
  | Named n _ => n
  | SliceOf e => "[]" +:+ Type_String e
  end.

(** [Type.Elem()] of a slice type. *)
Fixpoint Elem (t : GoType) : GoType :=
  match t with
  | SliceOf e => e
  | Named _ u => Elem u
  | Plain _ => Plain reflect.Invalid
  end.

(** [time.Duration] *)
Definition Duration : GoType := Named "time.Duration" (Plain reflect.Int64).

(** What a variable holds.  Signed integers of every width are [VInt],
    unsigned ones [VUint], both float widths [VFloat], both complex widths
    [VComplex]; a nil slice is the empty [VSlice].  A value of a kind the
    codec does not interpret (struct, map, pointer, ...) is kept as
    [VOther r], [r] being its [fmt.Sprint] rendering, the one observation
    [Marshal] makes of it. *)
Inductive GoValue :=
| VString (s : string)
| VBool (b : bool)
| VInt (i : Z)
| VUint (u : Z)
| VFloat (f : spec_float)
| VComplex (re im : spec_float)
| VSlice (elems : list GoValue)
| VOther (rendering : string).

(** [reflect.Value] of a struct field: its static type and what it holds. *)
Record Value := { Type_of : GoType; Holds : GoValue }.

(** [v.Kind()] *)
Definition Value_Kind (v : Value) : reflect.Kind := Kind_of (Type_of v).

(** [v.Set(x)] and its typed variants [SetString], [SetBool], [SetInt],
    [SetUint], [SetFloat], [SetComplex].  The numbers the codec stores were
    parsed with the bit size of the field, so storing does not truncate. *)
Definition Value_Set (v : Value) (x : GoValue) : Value :=
  {| Type_of := Type_of v; Holds := x |}.

(** [v.Len()] and the elements [v.Index(0)], ..., [v.Index(v.Len()-1)] of a slice *)
Definition Value_elems (v : Value) : list Value :=
  match Holds v with
  | VSlice l => (fun x => {| Type_of := Elem (Type_of v); Holds := x |}) <$> l
  | _ => []
  end.

(** [reflect.StructTag]: the [key:"value"] pairs of a field tag, in order. *)
Definition StructTag := list (string * string).

(** [tag.Lookup(key)] *)
Fixpoint Tag_Lookup (tag : StructTag) (key : string) : option string :=
  match tag with
  | [] => None
  | (k, v) :: tag' => if streq k key then Some v else Tag_Lookup tag' key
  end.

(** [reflect.StructField] *)
Record StructField := { Name : string; Typ : GoType; Tag : StructTag }.

(** A struct value: its fields in declaration order, [ref.Type().Field(i)]
    paired with what [ref.Field(i)] holds. *)
Abbreviation StructValue := (list (StructField * GoValue)).

(** The [data interface{}] argument. *)
Inductive Pointee := IsStruct (ref : StructValue) | NotStruct.
Inductive Argument := NonPointer | PointerTo (elem : Pointee).

(** [v1.ObjectMeta], restricted to the two maps the codec uses;
    [None] is the nil map. *)
Record ObjectMeta := {
  Labels : option (gmap string string);
  Annotations : option (gmap string string)
}.

(** [value, ok := dict[key]] *)
Definition map_index (dict : option (gmap string string)) (key : string) : option string :=
  match dict with
  | Some m => m !! key
  | None => None
  end.

(** ** Floating point and complex conversions, as an interface *)

(** [ParseFloat s bitSize] is [strconv.ParseFloat], [ParseComplex] is
    [strconv.ParseComplex] ([None] on error); [FormatFloat f bitSize] and
    [FormatComplex re im bitSize] are the [%v] renderings of [fmt]. *)
Class FloatConv := {
  ParseFloat : string -> Z -> option spec_float;
  ParseComplex : string -> Z -> option (spec_float * spec_float);
  FormatFloat : spec_float -> Z -> string;
  FormatComplex : spec_float -> spec_float -> Z -> string
}.

(** ** fmt *)

Definition bitSize_of (t : GoType) : Z :=
  match Kind_of t with
  | reflect.Float32 => 32
  | reflect.Complex64 => 64
  | reflect.Float64 => 64
  | _ => 128
  end.

(** [fmt.Sprint(v)] for a [reflect.Value] [v]: [fmt] prints what [v] holds.
    A [time.Duration] is a [Stringer] and is printed by its [String] method;
    everything else is printed by kind with the [%v] rules. *)
Fixpoint Sprint_as `{FloatConv} (t : GoType) (x : GoValue) : string :=
  match x with
  | VString s => s
  | VBool b => if b then "true" else "false"
  | VInt i => if bool_decide (t = Duration) then Duration_String i else FormatInt i
  | VUint u => FormatUint u
  | VFloat f => FormatFloat f (bitSize_of t)
  | VComplex re im => FormatComplex re im (bitSize_of t)
  | VSlice l => "[" +:+ strings_Join (List.map (Sprint_as (Elem t)) l) " " +:+ "]"
  | VOther r => r
  end.

Definition Sprint `{FloatConv} (v : Value) : string := Sprint_as (Type_of v) (Holds v).

(** ** The package [metadata] *)

Inductive error :=
| ErrUnsupportedType
| ErrConversion
| ErrNotStructPointer
| ErrValueMissing.

Definition sliceOfStrings : GoType := SliceOf (Plain reflect.String).
Definition sliceOfBools : GoType := SliceOf (Plain reflect.Bool).
Definition sliceOfInts : GoType := SliceOf (Plain reflect.Int).
Definition sliceOfUints : GoType := SliceOf (Plain reflect.Uint).
Definition sliceOfInt64s : GoType := SliceOf (Plain reflect.Int64).
Definition sliceOfUint64s : GoType := SliceOf (Plain reflect.Uint64).
Definition sliceOfFloat32s : GoType := SliceOf (Plain reflect.Float32).
Definition sliceOfFloat64s : GoType := SliceOf (Plain reflect.Float64).
Definition sliceOfDurations : GoType := SliceOf Duration.

(** The loop shared by [parseBools], [parseInts], ...: convert every element
    of [data] in order, appending to [out]; the first failure returns
    [nil, ErrConversion]. *)
Fixpoint parseEach {A} (conv : string -> option A) (data : list string) (out : list A)
  : list A * option error :=
  match data with
  | [] => (out, None)
  | v :: data' =>
      match conv v with
      | None => ([], Some ErrConversion)
      | Some x => parseEach conv data' (out ++ [x])
      end
  end.

(** [err == nil] after a [strconv] integer parse *)
Definition number (r : Z * option NumError) : option Z :=
  match r with
  | (n, None) => Some n
  | (_, Some _) => None
  end.

Definition parseBools (data : list string) : list bool * option error :=
  parseEach ParseBool data [].

Definition parseInts (data : list string) : list Z * option error :=
  parseEach (fun v => number (ParseInt v 32)) data [].

Definition parseUints (data : list string) : list Z * option error :=
  parseEach (fun v => number (ParseUint v 32)) data [].

Definition parseInt64s (data : list string) : list Z * option error :=
  parseEach (fun v => number (ParseInt v 64)) data [].

Definition parseUint64s (data : list string) : list Z * option error :=
  parseEach (fun v => number (ParseUint v 64)) data [].

Definition parseFloat32s `{FloatConv} (data : list string) : list spec_float * option error :=
  parseEach (fun v => ParseFloat v 32) data [].

Definition parseFloat64s `{FloatConv} (data : list string) : list spec_float * option error :=
  parseEach (fun v => ParseFloat v 64) data [].

Definition parseDurations (data : list string) : list Z * option error :=
  parseEach ParseDuration data [].

(** One [case] of [handleSlice]: on a parse error return [ErrConversion] and
    leave the field alone, otherwise [field.Set(reflect.ValueOf(data))]. *)
Definition setParsed {A} (field : Value) (wrap : A -> GoValue)
    (parsed : list A * option error) : Value * option error :=
  match parsed with
  | (_, Some _) => (field, Some ErrConversion)
  | (data, None) => (Value_Set field (VSlice (wrap <$> data)), None)
  end.

Definition handleSlice `{FloatConv} (field : Value) (value separator : string)
  : Value * option error :=
  let separator := if streq separator "" then "," else separator in
  let splitData := strings_Split value separator in
  let t := Type_of field in
  if bool_decide (t = sliceOfStrings) then
    (Value_Set field (VSlice (VString <$> splitData)), None)
  else if bool_decide (t = sliceOfBools) then setParsed field VBool (parseBools splitData)
  else if bool_decide (t = sliceOfInts) then setParsed field VInt (parseInts splitData)
  else if bool_decide (t = sliceOfUints) then setParsed field VUint (parseUints splitData)
  else if bool_decide (t = sliceOfInt64s) then setParsed field VInt (parseInt64s splitData)
  else if bool_decide (t = sliceOfUint64s) then setParsed field VUint (parseUint64s splitData)
  else if bool_decide (t = sliceOfFloat32s) then setParsed field VFloat (parseFloat32s splitData)
  else if bool_decide (t = sliceOfFloat64s) then setParsed field VFloat (parseFloat64s splitData)
  else if bool_decide (t = sliceOfDurations) then setParsed field VInt (parseDurations splitData)
  else (field, Some ErrUnsupportedType).

(** One scalar [case] of [parseValue]: on a parse error return
    [ErrConversion], otherwise set the field. *)
Definition setScalar {A} (valueField : Value) (wrap : A -> GoValue)
    (parsed : option A) : Value * option error :=
  match parsed with
  | None => (valueField, Some ErrConversion)
  | Some x => (Value_Set valueField (wrap x), None)
  end.

Definition parseValue `{FloatConv} (typeField : StructField) (valueField : Value)
    (value : string) : Value * option error :=
  match Kind_of (Typ typeField) with
  | reflect.String => (Value_Set valueField (VString value), None)
  | reflect.Bool => setScalar valueField VBool (ParseBool value)
  | reflect.Int8 => setScalar valueField VInt (number (ParseInt value 8))
  | reflect.Int16 => setScalar valueField VInt (number (ParseInt value 16))
  | reflect.Int | reflect.Int32 => setScalar valueField VInt (number (ParseInt value 32))
  | reflect.Int64 =>
      if streq (Type_String (Typ typeField)) "time.Duration"
      then setScalar valueField VInt (ParseDuration value)
      else setScalar valueField VInt (number (ParseInt value 64))
  | reflect.Uint8 => setScalar valueField VUint (number (ParseUint value 8))
  | reflect.Uint16 => setScalar valueField VUint (number (ParseUint value 16))
  | reflect.Uint | reflect.Uint32 => setScalar valueField VUint (number (ParseUint value 32))
  | reflect.Uint64 => setScalar valueField VUint (number (ParseUint value 64))
  | reflect.Float32 => setScalar valueField VFloat (ParseFloat value 32)
  | reflect.Float64 => setScalar valueField VFloat (ParseFloat value 64)
  | reflect.Complex64 =>
      setScalar valueField (fun c => VComplex (fst c) (snd c)) (ParseComplex value 64)
  | reflect.Complex128 =>
      setScalar valueField (fun c => VComplex (fst c) (snd c)) (ParseComplex value 128)
  | reflect.Slice =>
      let '(valueField', err) := handleSlice valueField value "," in
      match err with
      | Some _ => (valueField', Some ErrConversion)
      | None => (valueField', None)
      end
  | _ => (valueField, Some ErrUnsupportedType)
  end.

(** Which of the two maps a field is stored in. *)
Inductive Dict := InAnnotations | InLabels.

(** The lookup-with-fallback at the head of both loops: try the
    [annotation] tag, fall back to the [label] tag; [None] is [continue]. *)
Definition fieldTag (refTypeField : StructField) : option (Dict * string) :=
  match Tag_Lookup (Tag refTypeField) "annotation" with
  | Some tag => Some (InAnnotations, tag)
  | None =>
      match Tag_Lookup (Tag refTypeField) "label" with
      | Some tag => Some (InLabels, tag)
      | None => None
      end
  end.

(** [fmt.Sprintf("%s/%s", prefix, tag)] *)
Definition fieldKey (prefix tag : string) : string := prefix +:+ "/" +:+ tag.

Definition selectDict (metadata : ObjectMeta) (d : Dict) : option (gmap string string) :=
  match d with
  | InAnnotations => Annotations metadata
  | InLabels => Labels metadata
  end.

(** The loop of [Unmarshal], from field [i], with [n] fields to go.  It
    returns the struct as the loop leaves it and the error returned. *)
Fixpoint Unmarshal_loop `{FloatConv} (metadata : ObjectMeta) (prefix : string)
    (n i : nat) (ref : StructValue) : StructValue * option error :=
  match n with
  | O => (ref, None)
  | S n' =>
      match ref !! i with
      | None => (ref, None)
      | Some (refTypeField, held) =>
          let refField := {| Type_of := Typ refTypeField; Holds := held |} in
          match fieldTag refTypeField with
          | None => Unmarshal_loop metadata prefix n' (S i) ref
          | Some (d, tag) =>
              let key := fieldKey prefix tag in
              match map_index (selectDict metadata d) key with
              | None => (ref, Some ErrValueMissing)
              | Some value =>
                  let '(refField', err) := parseValue refTypeField refField value in
                  let ref' := <[i := (refTypeField, Holds refField')]> ref in
                  match err with
                  | Some e => (ref', Some e)
                  | None => Unmarshal_loop metadata prefix n' (S i) ref'
                  end
              end
          end
      end
  end.

Definition Unmarshal `{FloatConv} (metadata : ObjectMeta) (data : Argument)
    (prefix : string) : Argument * option error :=
  match data with
  | PointerTo (IsStruct ref) =>
      let '(ref', err) := Unmarshal_loop metadata prefix (length ref) 0 ref in
      (PointerTo (IsStruct ref'), err)
  | _ => (data, Some ErrNotStructPointer)
  end.

(** What [Marshal] stores for a field: the elements of a slice printed one by
    one and joined with [","], anything else printed whole. *)
Definition fieldText `{FloatConv} (refField : Value) : string :=
  if bool_decide (Value_Kind refField = reflect.Slice)
  then strings_Join (Sprint <$> Value_elems refField) ","
  else Sprint refField.

(** [dict[key] = text] on the map selected by [d]; the state is the pair of
    the (non-nil) labels and annotations maps. *)
Definition assign (d : Dict) (key text : string)
    (maps : gmap string string * gmap string string)
  : gmap string string * gmap string string :=
  match d with
  | InAnnotations => (maps.1, <[key := text]> maps.2)
  | InLabels => (<[key := text]> maps.1, maps.2)
  end.

(** The loop of [Marshal], from field [i], with [n] fields to go. *)
Fixpoint Marshal_loop `{FloatConv} (prefix : string) (n i : nat) (ref : StructValue)
    (maps : gmap string string * gmap string string)
  : gmap string string * gmap string string :=
  match n with
  | O => maps
  | S n' =>
      match ref !! i with
      | None => maps
      | Some (refTypeField, held) =>
          let refField := {| Type_of := Typ refTypeField; Holds := held |} in
          match fieldTag refTypeField with
          | None => Marshal_loop prefix n' (S i) ref maps
          | Some (d, tag) =>
              let key := fieldKey prefix tag in
              Marshal_loop prefix n' (S i) ref (assign d key (fieldText refField) maps)
          end
      end
  end.

(** [make(map[string]string)] for a nil map *)
Definition orEmpty (m : option (gmap string string)) : gmap string string :=
  match m with
  | Some m => m
  | None => ∅
  end.

Definition Marshal `{FloatConv} (metadata : ObjectMeta) (data : Argument)
    (prefix : string) : ObjectMeta * option error :=
  match data with
  | PointerTo (IsStruct ref) =>
      let maps := (orEmpty (Labels metadata), orEmpty (Annotations metadata)) in
      let maps := Marshal_loop prefix (length ref) 0 ref maps in
      ({| Labels := Some maps.1; Annotations := Some maps.2 |}, None)
  | _ => (metadata, Some ErrNotStructPointer)
  end.

(** ** The example of the repository: [Data] and the maps of its tests *)

Definition Data (ID : Z) (Name : string) (Age : Z) (Skills : list string) : StructValue :=
  [ ({| Name := "ID"; Typ := Plain reflect.Int; Tag := [("annotation", "id")] |}, VInt ID);
    ({| Name := "Name"; Typ := Plain reflect.String; Tag := [("annotation", "name")] |},
     VString Name);
    ({| Name := "Age"; Typ := Plain reflect.Uint; Tag := [("label", "age")] |}, VUint Age);
    ({| Name := "Skills"; Typ := sliceOfStrings; Tag := [("label", "skills")] |},
     VSlice (VString <$> Skills)) ].

Definition test_metadata : ObjectMeta :=
  {| Annotations := Some (<["prefix/id" := "1"]> (<["prefix/name" := "John"]> ∅));
     Labels := Some (<["prefix/age" := "30"]> (<["prefix/skills" := "cooking,swimming,driving"]> ∅)) |}.

(** ** Notions used by the specification *)

(** The kinds [parseValue] converts as scalars. *)
Definition scalarKind (k : reflect.Kind) : bool :=
  match k with
  | reflect.String | reflect.Bool
  | reflect.Int | reflect.Int8 | reflect.Int16 | reflect.Int32 | reflect.Int64
  | reflect.Uint | reflect.Uint8 | reflect.Uint16 | reflect.Uint32 | reflect.Uint64
  | reflect.Float32 | reflect.Float64 | reflect.Complex64 | reflect.Complex128 => true
  | _ => false
  end.

(** The conversion of one token of a sequence, for each of the nine sequence
    types [handleSlice] knows; [None] for any other type. *)
Definition elementConv `{FloatConv} (t : GoType) : option (string -> option GoValue) :=
  if bool_decide (t = sliceOfStrings) then Some (fun tok => Some (VString tok))
  else if bool_decide (t = sliceOfBools) then Some (fun tok => VBool <$> ParseBool tok)
  else if bool_decide (t = sliceOfInts) then Some (fun tok => VInt <$> number (ParseInt tok 32))
  else if bool_decide (t = sliceOfUints) then Some (fun tok => VUint <$> number (ParseUint tok 32))
  else if bool_decide (t = sliceOfInt64s) then Some (fun tok => VInt <$> number (ParseInt tok 64))
  else if bool_decide (t = sliceOfUint64s) then Some (fun tok => VUint <$> number (ParseUint tok 64))
  else if bool_decide (t = sliceOfFloat32s) then Some (fun tok => VFloat <$> ParseFloat tok 32)
  else if bool_decide (t = sliceOfFloat64s) then Some (fun tok => VFloat <$> ParseFloat tok 64)
  else if bool_decide (t = sliceOfDurations) then Some (fun tok => VInt <$> ParseDuration tok)
  else None.

(** The separator [handleSlice] splits on. *)
Definition effectiveSeparator (separator : string) : string :=
  if streq separator "" then "," else separator.

(** [Unmarshal] reaches field [i] with the struct in state [ref_i]: the
    iterations for the fields [0 .. i-1] went through without an error. *)
Definition reaches `{FloatConv} (metadata : ObjectMeta) (prefix : string)
    (ref : StructValue) (i : nat) (ref_i : StructValue) : Prop :=
  (i < length ref)%nat /\ Unmarshal_loop metadata prefix i 0 ref = (ref_i, None).

(** What one iteration of [Unmarshal] leaves in a field holding [held]. *)
Definition decodeField `{FloatConv} (metadata : ObjectMeta) (prefix : string)
    (refTypeField : StructField) (held : GoValue) : GoValue :=
  match fieldTag refTypeField with
  | None => held
  | Some (d, tag) =>
      match map_index (selectDict metadata d) (fieldKey prefix tag) with
      | None => held
      | Some value =>
          Holds (parseValue refTypeField {| Type_of := Typ refTypeField; Holds := held |} value).1
      end
  end.

Definition selectMap (d : Dict) (maps : gmap string string * gmap string string)
  : gmap string string :=
  match d with
  | InAnnotations => maps.2
  | InLabels => maps.1
  end.

(** ** Concrete records used as examples *)

(** A field of a nested struct type, [Owner struct{ Name string }]. *)
Definition owner_field : StructField :=
  {| Name := "Owner"; Typ := Plain reflect.Struct; Tag := [("label", "owner")] |}.

(** A field of type [[]uint8], a sequence type outside the nine supported. *)
Definition raw_field : StructField :=
  {| Name := "Raw"; Typ := SliceOf (Plain reflect.Uint8); Tag := [("label", "raw")] |}.

(** A field of type [[]int]. *)
Definition ports_field : StructField :=
  {| Name := "Ports"; Typ := sliceOfInts; Tag := [("annotation", "ports")] |}.


Definition no_metadata : ObjectMeta := {| Labels := None; Annotations := None |}.

Definition labels_only (m : gmap string string) : ObjectMeta :=
  {| Labels := Some m; Annotations := None |}.

Definition annotations_only (m : gmap string string) : ObjectMeta :=
  {| Labels := None; Annotations := Some m |}.


(** A field of type [time.Duration] and one of type [int64]. *)
Definition timeout_field : StructField :=
  {| Name := "Timeout"; Typ := Duration; Tag := [("annotation", "timeout")] |}.

Definition size_field : StructField :=
  {| Name := "Size"; Typ := Plain reflect.Int64; Tag := [("annotation", "size")] |}.

(** A field carrying both tags. *)
Definition both_field : StructField :=
  {| Name := "Zone"; Typ := Plain reflect.String;
     Tag := [("label", "y"); ("annotation", "x")] |}.

(** ** Decimal numerals, as the specification reads them *)

Fixpoint allDigits (s : string) : bool :=
  match s with
  | EmptyString => true
  | String c s' => isDigit c && allDigits s'
  end.

(** The number written by the digits of [s], continuing from [acc]. *)
Fixpoint digitsValue (s : string) (acc : Z) : Z :=
  match s with
  | EmptyString => acc
  | String c s' => digitsValue s' (acc * 10 + (byte c - 48))
  end.

(** One or more decimal digits. *)
Definition unsignedText (s : string) : option Z :=
  if negb (streq s "") && allDigits s then Some (digitsValue s 0) else None.

(** Base-10 text: an optional sign, then one or more decimal digits. *)
Definition decimalText (s : string) : option Z :=
  match s with
  | EmptyString => None
  | String c rest =>
      if bool_decide (c = "-"%char) then Z.opp <$> unsignedText rest
      else if bool_decide (c = "+"%char) then unsignedText rest
      else unsignedText s
  end.

(** The values of a signed and of an unsigned integer of [bitSize] bits. *)
Definition inSigned (bitSize : Z) (n : Z) : bool :=
  (- 2 ^ (bitSize - 1) <=? n) && (n <=? 2 ^ (bitSize - 1) - 1).

Definition inUnsigned (bitSize : Z) (n : Z) : bool :=
  (0 <=? n) && (n <=? 2 ^ bitSize - 1).

(** The field [ID int] of [Data]. *)
Definition id_field : StructField :=
  {| Name := "ID"; Typ := Plain reflect.Int; Tag := [("annotation", "id")] |}.

(** ** Conditions of the round trip *)

#[global] Instance Dict_eq_dec : EqDecision Dict.
Proof. solve_decision. Defined.








(** ** Notions used by the further properties *)

(** The error with which the iteration of [Unmarshal] for a field returns,
    [None] when it goes on to the next field. *)
Definition fieldError `{FloatConv} (metadata : ObjectMeta) (prefix : string)
    (refTypeField : StructField) (held : GoValue) : option error :=
  match fieldTag refTypeField with
  | None => None
  | Some (d, tag) =>
      match map_index (selectDict metadata d) (fieldKey prefix tag) with
      | None => Some ErrValueMissing
      | Some value =>
          (parseValue refTypeField {| Type_of := Typ refTypeField; Holds := held |} value).2
      end
  end.

(** A field as a whole iteration of [Unmarshal] without error leaves it. *)
Definition decoded `{FloatConv} (metadata : ObjectMeta) (prefix : string)
    (f : StructField * GoValue) : StructField * GoValue :=
  (f.1, decodeField metadata prefix f.1 f.2).



(** The bit size with which [parseValue] parses a field of a signed, resp.
    unsigned, integer kind. *)
Definition signedBits (k : reflect.Kind) : option Z :=
  match k with
  | reflect.Int8 => Some 8
  | reflect.Int16 => Some 16
  | reflect.Int | reflect.Int32 => Some 32
  | reflect.Int64 => Some 64
  | _ => None
  end.

Definition unsignedBits (k : reflect.Kind) : option Z :=
  match k with
  | reflect.Uint8 => Some 8
  | reflect.Uint16 => Some 16
  | reflect.Uint | reflect.Uint32 => Some 32
  | reflect.Uint64 => Some 64
  | _ => None
  end.

(** An element [x] has the shape and the width of the elements of the
    sequence type [t]. *)
Definition elementFits (t : GoType) (x : GoValue) : Prop :=
  match x with
  | VString _ => t = sliceOfStrings
  | VBool _ => t = sliceOfBools
  | VInt i =>
      (t = sliceOfInts /\ inSigned 32 i = true)
      \/ ((t = sliceOfInt64s \/ t = sliceOfDurations) /\ inSigned 64 i = true)
  | VUint u =>
      (t = sliceOfUints /\ inUnsigned 32 u = true)
      \/ (t = sliceOfUint64s /\ inUnsigned 64 u = true)
  | VFloat _ => t = sliceOfFloat32s \/ t = sliceOfFloat64s
  | _ => False
  end.

(** A value [v] has the shape and the width of the type [t] of its field;
    an [int] or [uint] field is held to 32 bits, a sequence is not empty. *)
Definition fits (t : GoType) (v : GoValue) : Prop :=
  match Kind_of t, v with
  | reflect.String, VString _ => True
  | reflect.Bool, VBool _ => True
  | reflect.Int8, VInt i => inSigned 8 i = true
  | reflect.Int16, VInt i => inSigned 16 i = true
  | reflect.Int, VInt i | reflect.Int32, VInt i => inSigned 32 i = true
  | reflect.Int64, VInt i => inSigned 64 i = true
  | reflect.Uint8, VUint u => inUnsigned 8 u = true
  | reflect.Uint16, VUint u => inUnsigned 16 u = true
  | reflect.Uint, VUint u | reflect.Uint32, VUint u => inUnsigned 32 u = true
  | reflect.Uint64, VUint u => inUnsigned 64 u = true
  | reflect.Float32, VFloat _ | reflect.Float64, VFloat _ => True
  | reflect.Complex64, VComplex _ _ | reflect.Complex128, VComplex _ _ => True
  | reflect.Slice, VSlice elems => elems <> [] /\ Forall (elementFits t) elems
  | _, _ => False
  end.





(** ** Prefixes as name spaces *)

Fixpoint noSlash (s : string) : bool :=
  match s with
  | EmptyString => true
  | String c s' => negb (bool_decide (c = "/"%char)) && noSlash s'
  end.

(** No tag of the struct contains ["/"]. *)
Definition slashFreeTags (ref : StructValue) : Prop :=
  Forall (fun f => match fieldTag f.1 with
                   | Some (_, tag) => noSlash tag = true
                   | None => True
                   end) ref.

(** The argument is a pointer to a struct. *)
Definition isStructPointer (data : Argument) : Prop :=
  exists ref : StructValue, data = PointerTo (IsStruct ref).

(** ** Sequences of integers *)

(** The sequence types of integers: whether the elements are signed, and the
    bit size with which they are parsed. *)
Definition integerSequence (t : GoType) : option (bool * Z) :=
  if bool_decide (t = sliceOfInts) then Some (true, 32)
  else if bool_decide (t = sliceOfInt64s) then Some (true, 64)
  else if bool_decide (t = sliceOfUints) then Some (false, 32)
  else if bool_decide (t = sliceOfUint64s) then Some (false, 64)
  else None.

(** The number that a piece of text stands for as an element of such a
    sequence, if it stands for one. *)
Definition integerElement (signed : bool) (bits : Z) (tok : string) : option GoValue :=
  if signed then
    match decimalText tok with
    | Some n => if inSigned bits n then Some (VInt n) else None
    | None => None
    end
  else
    match unsignedText tok with
    | Some n => if inUnsigned bits n then Some (VUint n) else None
    | None => None
    end.

(** * Verification *)

Section Codec.
Context `{FloatConv}.

(** ** The element loops *)

Lemma parseEach_spec {A} (conv : string -> option A) (data : list string) (out : list A) :
  parseEach conv data out =
    match mapM conv data with
    | Some xs => (out ++ xs, None)
    | None => ([], Some ErrConversion)
    end.
Proof.
  revert out. induction data as [|v data IH]; intros out; simpl.
  - by rewrite app_nil_r.
  - destruct (conv v) as [x|]; simpl; [|done].
    rewrite IH. destruct (mapM conv data); simpl; [|done].
    by rewrite <- app_assoc.
Qed.

Lemma mapM_wrap {A B} (conv : string -> option A) (wrap : A -> B) (data : list string) :
  mapM (fun tok => wrap <$> conv tok) data = fmap wrap <$> mapM conv data.
Proof.
  induction data as [|v data IH]; simpl; [done|].
  destruct (conv v); simpl; [|done].
  rewrite IH. by destruct (mapM conv data).
Qed.

Lemma setParsed_spec {A} (field : Value) (wrap : A -> GoValue)
    (conv : string -> option A) (data : list string) :
  setParsed field wrap (parseEach conv data []) =
    match mapM (fun tok => wrap <$> conv tok) data with
    | Some vs => (Value_Set field (VSlice vs), None)
    | None => (field, Some ErrConversion)
    end.
Proof.
  rewrite parseEach_spec, mapM_wrap.
  by destruct (mapM conv data).
Qed.

(** [handleSlice] converts every token or nothing. *)
Lemma handleSlice_spec (field : Value) (value separator : string) :
  handleSlice field value separator =
    match elementConv (Type_of field) with
    | None => (field, Some ErrUnsupportedType)
    | Some conv =>
        match mapM conv (strings_Split value (effectiveSeparator separator)) with
        | Some vs => (Value_Set field (VSlice vs), None)
        | None => (field, Some ErrConversion)
        end
    end.
Proof.
  unfold handleSlice, elementConv, effectiveSeparator.
  unfold parseBools, parseInts, parseUints, parseInt64s, parseUint64s,
    parseFloat32s, parseFloat64s, parseDurations.
  repeat (case_bool_decide; [first [ by rewrite setParsed_spec | idtac ]|]);
    try done.
  induction (strings_Split _ _) as [|tok l IH]; simpl; [done|].
  simpl in IH. destruct (mapM (fun tok => Some (VString tok)) l) eqn:E; simpl in *.
  - by inversion IH.
  - done.
Qed.

(** ** [parseValue] *)

Lemma setScalar_unchanged {A} (valueField : Value) (wrap : A -> GoValue)
    (parsed : option A) (e : error) :
  (setScalar valueField wrap parsed).2 = Some e ->
  setScalar valueField wrap parsed = (valueField, Some ErrConversion).
Proof. by destruct parsed. Qed.

(** A failed conversion leaves the field as it was. *)
Lemma parseValue_error_unchanged (typeField : StructField) (valueField : Value)
    (value : string) (e : error) :
  (parseValue typeField valueField value).2 = Some e ->
  (parseValue typeField valueField value).1 = valueField.
Proof.
  unfold parseValue.
  destruct (Kind_of (Typ typeField)); simpl; try done;
    try (intros Herr; by rewrite (setScalar_unchanged _ _ _ _ Herr)).
  - case_match; intros Herr; by rewrite (setScalar_unchanged _ _ _ _ Herr).
  - rewrite handleSlice_spec.
    destruct (elementConv _) as [conv|]; [|done].
    by destruct (mapM conv _).
Qed.

(** ** The loop of [Unmarshal] *)

Lemma Unmarshal_loop_length (metadata : ObjectMeta) (prefix : string)
    (n i : nat) (ref : StructValue) :
  length (Unmarshal_loop metadata prefix n i ref).1 = length ref.
Proof.
  revert i ref. induction n as [|n IH]; intros i ref; simpl; [done|].
  destruct (ref !! i) as [[tf held]|]; [|done].
  destruct (fieldTag tf) as [[d tag]|]; [|apply IH].
  destruct (map_index _ _) as [value|]; [|done].
  destruct (parseValue _ _ _) as [field' [e|]]; simpl.
  - by rewrite length_insert.
  - by rewrite IH, length_insert.
Qed.

(** The iterations for the fields [i .. i+n-1] touch no other field. *)
Lemma Unmarshal_loop_frame (metadata : ObjectMeta) (prefix : string)
    (n i : nat) (ref : StructValue) (j : nat) :
  (j < i \/ i + n <= j)%nat ->
  (Unmarshal_loop metadata prefix n i ref).1 !! j = ref !! j.
Proof.
  revert i ref. induction n as [|n IH]; intros i ref Hj; simpl; [done|].
  destruct (ref !! i) as [[tf held]|]; [|done].
  destruct (fieldTag tf) as [[d tag]|]; [|apply IH; lia].
  destruct (map_index _ _) as [value|]; [|done].
  destruct (parseValue _ _ _) as [field' [e|]]; simpl.
  - apply list_lookup_insert_ne. lia.
  - rewrite IH by lia. apply list_lookup_insert_ne. lia.
Qed.

(** Running [n + m] iterations is running [n], then [m] unless an error came. *)
Lemma Unmarshal_loop_app (metadata : ObjectMeta) (prefix : string)
    (n m i : nat) (ref : StructValue) :
  (i + n <= length ref)%nat ->
  Unmarshal_loop metadata prefix (n + m) i ref =
    match Unmarshal_loop metadata prefix n i ref with
    | (ref', Some e) => (ref', Some e)
    | (ref', None) => Unmarshal_loop metadata prefix m (i + n) ref'
    end.
Proof.
  revert i ref. induction n as [|n IH]; intros i ref Hlen; simpl.
  - by rewrite Nat.add_0_r.
  - destruct (ref !! i) as [[tf held]|] eqn:Hi.
    2:{ apply lookup_ge_None in Hi. lia. }
    destruct (fieldTag tf) as [[d tag]|].
    2:{ rewrite IH by lia. by rewrite Nat.add_succ_comm. }
    destruct (map_index _ _) as [value|]; [|done].
    destruct (parseValue _ _ _) as [field' [e|]]; [done|].
    rewrite IH by (rewrite length_insert; lia).
    by rewrite Nat.add_succ_comm.
Qed.

(** After [n] iterations without an error, each visited field holds what its
    own iteration decoded. *)
Lemma Unmarshal_loop_decoded (metadata : ObjectMeta) (prefix : string)
    (n i : nat) (ref ref' : StructValue) :
  Unmarshal_loop metadata prefix n i ref = (ref', None) ->
  forall (j : nat) (tf : StructField) (held : GoValue),
    (i <= j < i + n)%nat -> ref !! j = Some (tf, held) ->
    ref' !! j = Some (tf, decodeField metadata prefix tf held).
Proof.
  revert i ref. induction n as [|n IH]; intros i ref Hrun j tfj hj Hj Hlook; [lia|].
  simpl in Hrun.
  destruct (ref !! i) as [[tf held]|] eqn:Hi.
  2:{ apply lookup_ge_None in Hi. apply lookup_lt_Some in Hlook. lia. }
  assert (Hrest : forall ref1, Unmarshal_loop metadata prefix n (S i) ref1 = (ref', None) ->
            ref1 !! i = Some (tf, decodeField metadata prefix tf held) ->
            (forall k, k <> i -> ref1 !! k = ref !! k) ->
            ref' !! j = Some (tfj, decodeField metadata prefix tfj hj)).
  { intros ref1 Hrun1 Hi1 Hother.
    destruct (decide (j = i)) as [->|Hne].
    - replace ref' with (Unmarshal_loop metadata prefix n (S i) ref1).1 by by rewrite Hrun1.
      rewrite Unmarshal_loop_frame by lia. rewrite Hi1. congruence.
    - apply (IH (S i) ref1 Hrun1); [lia|]. by rewrite Hother. }
  unfold decodeField in Hrest.
  destruct (fieldTag tf) as [[d tag]|].
  2:{ by apply (Hrest ref). }
  destruct (map_index _ _) as [value|]; [|done].
  destruct (parseValue _ _ _) as [field' [e|]] eqn:Hparse; [done|].
  apply (Hrest _ Hrun); simpl.
  - apply list_lookup_insert_eq. by apply lookup_lt_Some in Hi.
  - intros k Hk. by apply list_lookup_insert_ne.
Qed.

(** From the state in which [Unmarshal] reaches field [i], the call returns
    what the remaining iterations return. *)
Lemma Unmarshal_from_reached (metadata : ObjectMeta) (prefix : string)
    (ref : StructValue) (i : nat) (ref_i : StructValue) :
  reaches metadata prefix ref i ref_i ->
  Unmarshal metadata (PointerTo (IsStruct ref)) prefix =
    let '(ref', err) := Unmarshal_loop metadata prefix (length ref - i) i ref_i in
    (PointerTo (IsStruct ref'), err).
Proof.
  intros [Hi Hrun]. unfold Unmarshal.
  replace (length ref) with (i + (length ref - i))%nat at 1 by lia.
  rewrite Unmarshal_loop_app by lia. by rewrite Hrun.
Qed.

Lemma reaches_lookup (metadata : ObjectMeta) (prefix : string)
    (ref : StructValue) (i : nat) (ref_i : StructValue) :
  reaches metadata prefix ref i ref_i -> ref_i !! i = ref !! i.
Proof.
  intros [Hi Hrun].
  replace ref_i with (Unmarshal_loop metadata prefix i 0 ref).1 by by rewrite Hrun.
  apply Unmarshal_loop_frame. lia.
Qed.

End Codec.

(** ** Missing keys (C3) *)

(** C3. When [Unmarshal] reaches a tagged field whose key [prefix/tag] is
    absent from the selected map, it returns [ErrValueMissing] at once: the
    fields before it keep their newly decoded values, the failing field and
    the fields after it are untouched. *)
Theorem C3_missing_key_aborts `{FloatConv} (metadata : ObjectMeta) (prefix : string)
    (ref ref_i : StructValue) (i : nat) (tf : StructField) (held : GoValue)
    (d : Dict) (tag : string) :
  reaches metadata prefix ref i ref_i ->
  ref_i !! i = Some (tf, held) ->
  fieldTag tf = Some (d, tag) ->
  map_index (selectDict metadata d) (fieldKey prefix tag) = None ->
  Unmarshal metadata (PointerTo (IsStruct ref)) prefix
    = (PointerTo (IsStruct ref_i), Some ErrValueMissing)
  /\ (forall j : nat, (i <= j)%nat -> ref_i !! j = ref !! j)
  /\ (forall (j : nat) (tfj : StructField) (hj : GoValue),
        (j < i)%nat -> ref !! j = Some (tfj, hj) ->
        ref_i !! j = Some (tfj, decodeField metadata prefix tfj hj)).
Proof.
  intros Hreach Hi Htag Hmiss. split; [|split].
  - rewrite (Unmarshal_from_reached _ _ _ _ _ Hreach).
    destruct Hreach as [Hlt _].
    destruct (length ref - i)%nat as [|n] eqn:Hn; [lia|].
    simpl. by rewrite Hi, Htag, Hmiss.
  - intros j Hj. destruct Hreach as [_ Hrun].
    replace ref_i with (Unmarshal_loop metadata prefix i 0 ref).1 by by rewrite Hrun.
    apply Unmarshal_loop_frame. lia.
  - intros j tfj hj Hj Hlook. destruct Hreach as [_ Hrun].
    apply (Unmarshal_loop_decoded _ _ _ _ _ _ Hrun); [lia|done].
Qed.

(** The test record of the repository, decoded from maps that lack
    ["prefix/age"]: [ID] and [Name] are set, [Age] and [Skills] are not. *)
Lemma C3_missing_key_witness :
  (2 < length (Data 0 "" 0 []))%nat /\
  forall L : FloatConv,
    Unmarshal {| Labels := Some ∅; Annotations := Annotations test_metadata |}
      (PointerTo (IsStruct (Data 0 "" 0 []))) "prefix"
    = (PointerTo (IsStruct (Data 1 "John" 0 [])), Some ErrValueMissing).
Proof.
  split; [simpl; lia|]. intros L.
  refine (proj1 (C3_missing_key_aborts
    {| Labels := Some ∅; Annotations := Annotations test_metadata |} "prefix"
    (Data 0 "" 0 []) (Data 1 "John" 0 []) 2
    {| Name := "Age"; Typ := Plain reflect.Uint; Tag := [("label", "age")] |}
    (VUint 0) InLabels "age" _ _ _ _)).
  - split; [simpl; lia|reflexivity].
  - reflexivity.
  - reflexivity.
  - reflexivity.
Defined.

(** ** Unsupported types (C2) *)

Lemma Marshal_no_error `{FloatConv} (metadata : ObjectMeta) (ref : StructValue)
    (prefix : string) :
  (Marshal metadata (PointerTo (IsStruct ref)) prefix).2 = None.
Proof. done. Qed.

(** C2, as the code has it.  When [Unmarshal] reaches a tagged field whose
    kind is neither one of the scalar kinds nor a slice (a nested struct, a
    map, a pointer, ...), and the key of the field is present, it returns
    [ErrUnsupportedType] and leaves the field alone.  [Marshal] has no such
    error: for any pointer to a struct it returns [nil]. *)
Theorem C2_unsupported_kind `{FloatConv} (metadata : ObjectMeta) (prefix : string)
    (ref ref_i : StructValue) (i : nat) (tf : StructField) (held : GoValue)
    (d : Dict) (tag value : string) :
  reaches metadata prefix ref i ref_i ->
  ref_i !! i = Some (tf, held) ->
  fieldTag tf = Some (d, tag) ->
  map_index (selectDict metadata d) (fieldKey prefix tag) = Some value ->
  scalarKind (Kind_of (Typ tf)) = false ->
  Kind_of (Typ tf) <> reflect.Slice ->
  Unmarshal metadata (PointerTo (IsStruct ref)) prefix
    = (PointerTo (IsStruct ref_i), Some ErrUnsupportedType)
  /\ forall (metadata' : ObjectMeta) (prefix' : string),
       (Marshal metadata' (PointerTo (IsStruct ref)) prefix').2 = None.
Proof.
  intros Hreach Hi Htag Hval Hscalar Hslice. split; [|done].
  rewrite (Unmarshal_from_reached _ _ _ _ _ Hreach).
  destruct Hreach as [Hlt _].
  destruct (length ref - i)%nat as [|n] eqn:Hn; [lia|].
  simpl. rewrite Hi, Htag, Hval.
  assert (Hparse : parseValue tf {| Type_of := Typ tf; Holds := held |} value
                   = ({| Type_of := Typ tf; Holds := held |}, Some ErrUnsupportedType)).
  { unfold parseValue. by destruct (Kind_of (Typ tf)). }
  rewrite Hparse. simpl. by rewrite list_insert_id.
Qed.

Lemma C2_unsupported_kind_witness :
  scalarKind (Kind_of (Typ owner_field)) = false /\
  forall L : FloatConv,
    Unmarshal (labels_only {["p/owner" := "{admin}"]})
      (PointerTo (IsStruct [(owner_field, VOther "{}")])) "p"
    = (PointerTo (IsStruct [(owner_field, VOther "{}")]), Some ErrUnsupportedType).
Proof.
  split; [reflexivity|]. intros L.
  refine (proj1 (C2_unsupported_kind (labels_only {["p/owner" := "{admin}"]}) "p"
    [(owner_field, VOther "{}")] [(owner_field, VOther "{}")] 0
    owner_field (VOther "{}") InLabels "owner" "{admin}" _ _ _ _ _ _)).
  - split; [simpl; lia|reflexivity].
  - reflexivity.
  - reflexivity.
  - reflexivity.
  - reflexivity.
  - discriminate.
Defined.

(** C2 as stated fails twice.  [Marshal] of a record with a nested struct
    field returns no error and stores the rendering of the struct; and
    [Unmarshal] into a [[]uint8] field returns [ErrConversion], because
    [parseValue] replaces whatever [handleSlice] returns by [ErrConversion]. *)
Lemma C2_counterexample :
  (scalarKind (Kind_of (Typ owner_field)) = false /\
   Kind_of (Typ raw_field) = reflect.Slice) /\
  forall L : FloatConv,
    Marshal no_metadata (PointerTo (IsStruct [(owner_field, VOther "{admin}")])) "p"
      = ({| Labels := Some {["p/owner" := "{admin}"]}; Annotations := Some ∅ |}, None)
    /\ handleSlice {| Type_of := Typ raw_field; Holds := VSlice [] |} "1,2" ","
      = ({| Type_of := Typ raw_field; Holds := VSlice [] |}, Some ErrUnsupportedType)
    /\ Unmarshal (labels_only {["p/raw" := "1,2"]})
         (PointerTo (IsStruct [(raw_field, VSlice [])])) "p"
      = (PointerTo (IsStruct [(raw_field, VSlice [])]), Some ErrConversion).
Proof. split; [done|]. intros L. repeat split. Qed.

(** ** Sequences: all or nothing (C7), text sequences (C10) *)

Lemma elementConv_slice `{FloatConv} (t : GoType) (conv : string -> option GoValue) :
  elementConv t = Some conv -> Kind_of t = reflect.Slice.
Proof.
  unfold elementConv.
  repeat (case_bool_decide; [by subst|]). done.
Qed.

(** C7. For a field of one of the supported sequence types, if some token of
    the split input fails its conversion, [handleSlice] returns
    [ErrConversion] and the field is as before: nothing of the tokens
    converted so far is stored.  The same holds of [parseValue], which splits
    on [","]. *)
Theorem C7_sequence_all_or_nothing `{FloatConv} (typeField : StructField)
    (held : GoValue) (value separator : string)
    (conv : string -> option GoValue) (tok : string) :
  elementConv (Typ typeField) = Some conv ->
  tok ∈ strings_Split value (effectiveSeparator separator) ->
  conv tok = None ->
  handleSlice {| Type_of := Typ typeField; Holds := held |} value separator
    = ({| Type_of := Typ typeField; Holds := held |}, Some ErrConversion)
  /\ (separator = "," ->
      parseValue typeField {| Type_of := Typ typeField; Holds := held |} value
        = ({| Type_of := Typ typeField; Holds := held |}, Some ErrConversion)).
Proof.
  intros Hconv Htok Hfail.
  assert (Hnone : mapM conv (strings_Split value (effectiveSeparator separator)) = None).
  { apply eq_None_not_Some. rewrite mapM_is_Some, Forall_forall.
    intros Hall. specialize (Hall tok Htok). simpl in Hall.
    rewrite Hfail in Hall. by destruct Hall. }
  assert (Hslice : handleSlice {| Type_of := Typ typeField; Holds := held |} value separator
            = ({| Type_of := Typ typeField; Holds := held |}, Some ErrConversion)).
  { rewrite handleSlice_spec. simpl. by rewrite Hconv, Hnone. }
  split; [done|]. intros ->.
  unfold parseValue. rewrite (elementConv_slice _ _ Hconv). by rewrite Hslice.
Qed.

Lemma C7_sequence_all_or_nothing_witness :
  "x" ∈ strings_Split "1,2,x" (effectiveSeparator ",") /\
  forall L : FloatConv,
    handleSlice {| Type_of := sliceOfInts; Holds := VSlice [VInt 7] |} "1,2,x" ","
      = ({| Type_of := sliceOfInts; Holds := VSlice [VInt 7] |}, Some ErrConversion).
Proof.
  split; [vm_compute; set_solver|]. intros L.
  refine (proj1 (C7_sequence_all_or_nothing ports_field (VSlice [VInt 7]) "1,2,x" ","
    (fun tok => VInt <$> number (ParseInt tok 32)) "x" _ _ _)).
  - reflexivity.
  - vm_compute. set_solver.
  - reflexivity.
Defined.

(** C10. Decoding into a [[]string] field never fails, whatever the input
    and the separator: the field receives the pieces of the split, and for
    the empty input that is the one-element sequence holding the empty
    string. *)
Theorem C10_text_sequence_decode_total `{FloatConv} (name : string) (tag : StructTag)
    (held : GoValue) (value separator : string) :
  handleSlice {| Type_of := sliceOfStrings; Holds := held |} value separator
    = ({| Type_of := sliceOfStrings;
          Holds := VSlice (VString <$> strings_Split value (effectiveSeparator separator)) |},
       None)
  /\ parseValue {| Name := name; Typ := sliceOfStrings; Tag := tag |}
       {| Type_of := sliceOfStrings; Holds := held |} value
    = ({| Type_of := sliceOfStrings;
          Holds := VSlice (VString <$> strings_Split value ",") |}, None)
  /\ parseValue {| Name := name; Typ := sliceOfStrings; Tag := tag |}
       {| Type_of := sliceOfStrings; Holds := held |} ""
    = ({| Type_of := sliceOfStrings; Holds := VSlice [VString ""] |}, None).
Proof. done. Qed.

(** ** The frame of [Marshal] (C9) and tag precedence (C4) *)

Lemma selectMap_assign_ne (d d' : Dict) (key text k : string)
    (maps : gmap string string * gmap string string) :
  (d' = d -> k <> key) ->
  selectMap d (assign d' key text maps) !! k = selectMap d maps !! k.
Proof.
  intros Hne. destruct d, d'; simpl; try done;
    apply lookup_insert_ne; intros ->; by apply Hne.
Qed.

Lemma Marshal_loop_frame `{FloatConv} (prefix : string) (n i : nat) (ref : StructValue)
    (maps : gmap string string * gmap string string) (d : Dict) (k : string) :
  (forall (j : nat) (tf : StructField) (held : GoValue) (tag : string),
     ref !! j = Some (tf, held) -> fieldTag tf = Some (d, tag) ->
     k <> fieldKey prefix tag) ->
  selectMap d (Marshal_loop prefix n i ref maps) !! k = selectMap d maps !! k.
Proof.
  intros Hfree. revert i maps. induction n as [|n IH]; intros i maps; simpl; [done|].
  destruct (ref !! i) as [[tf held]|] eqn:Hi; [|done].
  destruct (fieldTag tf) as [[d' tag]|] eqn:Htag; [|apply IH].
  rewrite IH. apply selectMap_assign_ne. intros ->. by eapply Hfree.
Qed.



(** C4. For a field that carries both an [annotation] and a [label] tag, the
    iteration of [Marshal] writes the annotations map under
    [prefix/annotation-name] and leaves the labels map alone; the iteration of
    [Unmarshal] is a function of the entry of the annotations map under that
    key.  Neither depends on the label name or on the labels map. *)
Theorem C4_annotation_wins `{FloatConv} (prefix : string) (ref : StructValue) (i : nat)
    (tf : StructField) (held : GoValue) (a l : string) :
  ref !! i = Some (tf, held) ->
  Tag_Lookup (Tag tf) "annotation" = Some a ->
  Tag_Lookup (Tag tf) "label" = Some l ->
  (forall labels annotations : gmap string string,
     Marshal_loop prefix 1 i ref (labels, annotations)
     = (labels,
        <[fieldKey prefix a := fieldText {| Type_of := Typ tf; Holds := held |}]> annotations))
  /\ (forall metadata : ObjectMeta,
        Unmarshal_loop metadata prefix 1 i ref
        = match map_index (Annotations metadata) (fieldKey prefix a) with
          | None => (ref, Some ErrValueMissing)
          | Some value =>
              let '(field', err) :=
                parseValue tf {| Type_of := Typ tf; Holds := held |} value in
              (<[i := (tf, Holds field')]> ref, err)
          end)
  /\ (forall (labels labels' annotations : option (gmap string string)),
        Unmarshal_loop {| Labels := labels; Annotations := annotations |} prefix 1 i ref
        = Unmarshal_loop {| Labels := labels'; Annotations := annotations |} prefix 1 i ref).
Proof.
  intros Hi Ha Hl.
  assert (Htag : fieldTag tf = Some (InAnnotations, a)) by (unfold fieldTag; by rewrite Ha).
  assert (Hloop : forall metadata : ObjectMeta,
     Unmarshal_loop metadata prefix 1 i ref
        = match map_index (Annotations metadata) (fieldKey prefix a) with
          | None => (ref, Some ErrValueMissing)
          | Some value =>
              let '(field', err) :=
                parseValue tf {| Type_of := Typ tf; Holds := held |} value in
              (<[i := (tf, Holds field')]> ref, err)
          end).
  { intros metadata. simpl. rewrite Hi, Htag. simpl.
    destruct (map_index _ _); [|done].
    by destruct (parseValue _ _ _) as [field' [e|]]. }
  split; [|split].
  - intros labels annotations. simpl. by rewrite Hi, Htag.
  - exact Hloop.
  - intros labels labels' annotations. by rewrite !Hloop.
Qed.

(** A field tagged [label:"y" annotation:"x"] is stored under ["prefix/x"]
    of the annotations. *)
Lemma C4_annotation_wins_witness :
  Tag_Lookup (Tag both_field) "label" = Some "y" /\
  forall L : FloatConv,
    Marshal_loop "prefix" 1 0 [(both_field, VString "eu")] (∅, ∅)
    = (∅, {["prefix/x" := "eu"]}).
Proof.
  split; [reflexivity|]. intros L.
  refine (proj1 (C4_annotation_wins "prefix" [(both_field, VString "eu")] 0
                   both_field (VString "eu") "x" "y" _ _ _) ∅ ∅); reflexivity.
Defined.

(** ** How sequences are encoded (C8) *)




(** ** Durations and 64-bit integers (C5) *)

(** C5. A value decoded into a field of kind [Int64] is parsed by
    [time.ParseDuration] when the type of the field is [time.Duration], and
    as a base-10 64-bit integer otherwise; so a duration field accepts
    ["1h30m"] and rejects ["5400000000000"] (it has no unit), and an [int64]
    field does the opposite. *)
Theorem C5_duration_or_integer `{FloatConv} (typeField : StructField)
    (valueField : Value) (value : string) :
  Kind_of (Typ typeField) = reflect.Int64 ->
  (Type_String (Typ typeField) = "time.Duration" ->
     parseValue typeField valueField value
       = match ParseDuration value with
         | Some d => (Value_Set valueField (VInt d), None)
         | None => (valueField, Some ErrConversion)
         end
     /\ parseValue typeField valueField "1h30m"
          = (Value_Set valueField (VInt 5400000000000), None)
     /\ parseValue typeField valueField "5400000000000"
          = (valueField, Some ErrConversion))
  /\ (Type_String (Typ typeField) <> "time.Duration" ->
     parseValue typeField valueField value
       = match ParseInt value 64 with
         | (n, None) => (Value_Set valueField (VInt n), None)
         | (_, Some _) => (valueField, Some ErrConversion)
         end
     /\ parseValue typeField valueField "1h30m" = (valueField, Some ErrConversion)
     /\ parseValue typeField valueField "5400000000000"
          = (Value_Set valueField (VInt 5400000000000), None)).
Proof.
  intros Hkind. unfold parseValue. rewrite Hkind. split; intros Hname.
  - unfold streq. rewrite bool_decide_eq_true_2 by done.
    repeat split.
  - unfold streq. rewrite bool_decide_eq_false_2 by done.
    repeat split. unfold setScalar, number. by destruct (ParseInt value 64) as [n [e|]].
Qed.

Lemma C5_duration_or_integer_witness :
  (Kind_of (Typ timeout_field) = reflect.Int64 /\
   Kind_of (Typ size_field) = reflect.Int64) /\
  forall L : FloatConv,
    parseValue timeout_field {| Type_of := Duration; Holds := VInt 0 |} "1h30m"
      = ({| Type_of := Duration; Holds := VInt 5400000000000 |}, None)
    /\ parseValue size_field {| Type_of := Plain reflect.Int64; Holds := VInt 0 |} "1h30m"
      = ({| Type_of := Plain reflect.Int64; Holds := VInt 0 |}, Some ErrConversion).
Proof.
  split; [done|]. intros L. split.
  - refine (proj1 (proj2 (proj1 (C5_duration_or_integer timeout_field
              {| Type_of := Duration; Holds := VInt 0 |} "" _) _))); reflexivity.
  - refine (proj1 (proj2 (proj2 (C5_duration_or_integer size_field
              {| Type_of := Plain reflect.Int64; Holds := VInt 0 |} "" _) _)));
      [reflexivity|discriminate].
Defined.

(** ** Decimal integers (C6) *)

Lemma isDigit_range (c : ascii) : isDigit c = true -> 0 <= byte c - 48 <= 9.
Proof. unfold isDigit. lia. Qed.

Lemma digitsValue_ge (s : string) (n : Z) :
  allDigits s = true -> 0 <= n -> n <= digitsValue s n.
Proof.
  revert n. induction s as [|c s IH]; intros n Hd Hn; simpl in *; [lia|].
  apply andb_true_iff in Hd as [Hc Hs]. apply isDigit_range in Hc.
  specialize (IH (n * 10 + (byte c - 48)) Hs). lia.
Qed.

Lemma ParseUint_loop_digits (bitSize : Z) (s : string) (n : Z) :
  1 <= bitSize <= 64 -> 0 <= n <= 2 ^ bitSize - 1 -> allDigits s = true ->
  ParseUint_loop bitSize s n =
    if digitsValue s n <=? 2 ^ bitSize - 1 then (digitsValue s n, None)
    else (2 ^ bitSize - 1, Some ErrRange).
Proof.
  intros Hbits. revert n. induction s as [|c s IH]; intros n Hn Hd; simpl in *.
  - rewrite (proj2 (Z.leb_le _ _)) by lia. done.
  - apply andb_true_iff in Hd as [Hc Hs]. rewrite Hc. simpl.
    pose proof (isDigit_range _ Hc) as Hdig.
    assert (Hpow : 2 ^ bitSize <= 2 ^ 64) by (apply Z.pow_le_mono_r; lia).
    pose proof (digitsValue_ge s (n * 10 + (byte c - 48)) Hs ltac:(lia)) as Hge.
    unfold maxUint64.
    change (2 ^ 64) with 18446744073709551616 in *.
    change ((18446744073709551616 - 1) / 10 + 1) with 1844674407370955162.
    destruct (Z.leb_spec 1844674407370955162 n) as [Hcut|Hcut].
    { rewrite (proj2 (Z.leb_gt _ _)) by lia. done. }
    destruct (Z_lt_le_dec (n * 10 + (byte c - 48)) 18446744073709551616) as [Hsmall|Hbig].
    + rewrite (Z.mod_small (n * 10 + (byte c - 48))) by lia.
      rewrite (proj2 (Z.ltb_ge _ _)) by lia. simpl.
      destruct (Z.ltb_spec (2 ^ bitSize - 1) (n * 10 + (byte c - 48))) as [Hover|Hok].
      * rewrite (proj2 (Z.leb_gt _ _)) by lia. done.
      * apply IH; [lia|done].
    + assert (Hmod : (n * 10 + (byte c - 48)) mod 18446744073709551616
                      = n * 10 + (byte c - 48) - 18446744073709551616).
      { symmetry. apply Z.mod_unique with 1; lia. }
      rewrite Hmod. rewrite (proj2 (Z.ltb_lt _ _)) by lia. simpl.
      rewrite (proj2 (Z.leb_gt _ _)) by lia. done.
Qed.

Lemma ParseUint_loop_nondigits (bitSize : Z) (s : string) (n : Z) :
  allDigits s = false ->
  ParseUint_loop bitSize s n = (0, Some ErrSyntax)
  \/ ParseUint_loop bitSize s n = (2 ^ bitSize - 1, Some ErrRange).
Proof.
  revert n. induction s as [|c s IH]; intros n Hd; simpl in *; [done|].
  destruct (isDigit c); simpl in *; [|by left].
  repeat case_match; auto.
Qed.

Lemma ParseUint_spec (s : string) (bitSize : Z) :
  1 <= bitSize <= 64 ->
  number (ParseUint s bitSize) =
    match unsignedText s with
    | Some n => if inUnsigned bitSize n then Some n else None
    | None => None
    end.
Proof.
  intros Hbits. unfold ParseUint, unsignedText.
  destruct s as [|c s]; [done|].
  assert (Hne : streq (String c s) "" = false) by done.
  rewrite Hne. simpl negb. rewrite andb_true_l.
  assert (Hpos : 0 < 2 ^ bitSize) by (apply Z.pow_pos_nonneg; lia).
  destruct (allDigits (String c s)) eqn:Hd.
  - rewrite ParseUint_loop_digits by (done || lia).
    pose proof (digitsValue_ge _ 0 Hd ltac:(lia)) as Hge.
    unfold inUnsigned. rewrite (proj2 (Z.leb_le 0 _)) by lia. simpl.
    by destruct (_ <=? _).
  - by destruct (ParseUint_loop_nondigits bitSize (String c s) 0 Hd) as [-> | ->].
Qed.

Lemma ParseUint_cases (s : string) (bitSize : Z) :
  1 <= bitSize <= 64 ->
  match unsignedText s with
  | Some u =>
      0 <= u /\
      ParseUint s bitSize =
        if u <=? 2 ^ bitSize - 1 then (u, None) else (2 ^ bitSize - 1, Some ErrRange)
  | None =>
      ParseUint s bitSize = (0, Some ErrSyntax)
      \/ ParseUint s bitSize = (2 ^ bitSize - 1, Some ErrRange)
  end.
Proof.
  intros Hbits. unfold ParseUint, unsignedText.
  destruct s as [|c s]; [by left|].
  assert (Hne : streq (String c s) "" = false) by done.
  rewrite Hne. simpl negb. rewrite andb_true_l.
  assert (Hpos : 0 < 2 ^ bitSize) by (apply Z.pow_pos_nonneg; lia).
  destruct (allDigits (String c s)) eqn:Hd.
  - split; [by apply digitsValue_ge|].
    by rewrite ParseUint_loop_digits by (done || lia).
  - by apply ParseUint_loop_nondigits.
Qed.

Ltac cases_on_comparisons :=
  repeat match goal with
         | |- context [?a <=? ?b] => destruct (Z.leb_spec a b)
         | |- context [?a <? ?b] => destruct (Z.ltb_spec a b)
         end;
  simpl; try done; try lia.

Lemma ParseInt_spec (s : string) (bitSize : Z) :
  2 <= bitSize <= 64 ->
  number (ParseInt s bitSize) =
    match decimalText s with
    | Some n => if inSigned bitSize n then Some n else None
    | None => None
    end.
Proof.
  intros Hbits. unfold ParseInt, decimalText.
  destruct s as [|c rest]; [done|].
  assert (Hpow : 2 ^ bitSize = 2 * 2 ^ (bitSize - 1)).
  { rewrite <- Z.pow_succ_r by lia. f_equal. lia. }
  assert (Hgt : 2 <= 2 ^ (bitSize - 1)).
  { change 2 with (2 ^ 1) at 1. apply Z.pow_le_mono_r; lia. }
  unfold inSigned.
  set (cutoff := 2 ^ (bitSize - 1)) in *.
  assert (Hsigned : forall (neg : bool) (text : string),
    number
      (let '(un, err) := ParseUint text bitSize in
       match err with
       | Some ErrSyntax => (0, err)
       | _ =>
           if negb neg && (cutoff <=? un) then (cutoff - 1, Some ErrRange)
           else if neg && (cutoff <? un) then (- cutoff, Some ErrRange)
           else (if neg then - un else un, None)
       end)
    = match (if neg then Z.opp <$> unsignedText text else unsignedText text) with
      | Some n => if (- cutoff <=? n) && (n <=? cutoff - 1) then Some n else None
      | None => None
      end).
  { intros neg text.
    pose proof (ParseUint_cases text bitSize ltac:(lia)) as Hu.
    destruct (unsignedText text) as [u|].
    - destruct Hu as [Hu0 ->]. rewrite Hpow. fold cutoff.
      destruct neg; simpl; cases_on_comparisons.
    - destruct Hu as [-> | ->]; [by destruct neg|].
      rewrite Hpow. fold cutoff.
      destruct neg; simpl; cases_on_comparisons. }
  destruct (decide (c = "-"%char)) as [->|Hminus]; [exact (Hsigned true rest)|].
  rewrite (bool_decide_eq_false_2 _ Hminus).
  destruct (decide (c = "+"%char)) as [->|Hplus]; [exact (Hsigned false rest)|].
  rewrite (bool_decide_eq_false_2 _ Hplus).
  exact (Hsigned false (String c rest)).
Qed.

(** C6. A value decoded into a field of kind [Int] is read as base-10 text
    and checked against the 32-bit range: text that is not an optionally
    signed run of digits, and text whose number lies outside
    [-2147483648, 2147483647], gives [ErrConversion] and leaves the field
    alone; any other text sets the field to its number. *)
Theorem C6_int_parsed_as_32_bits `{FloatConv} (typeField : StructField)
    (valueField : Value) (value : string) :
  Kind_of (Typ typeField) = reflect.Int ->
  parseValue typeField valueField value =
    match decimalText value with
    | Some n =>
        if (-2147483648 <=? n) && (n <=? 2147483647)
        then (Value_Set valueField (VInt n), None)
        else (valueField, Some ErrConversion)
    | None => (valueField, Some ErrConversion)
    end.
Proof.
  intros Hkind. unfold parseValue. rewrite Hkind.
  rewrite (ParseInt_spec value 32) by lia.
  destruct (decimalText value) as [n|]; [|done].
  change (inSigned 32 n) with ((-2147483648 <=? n) && (n <=? 2147483647)).
  by destruct (_ && _).
Qed.

Lemma C6_int_parsed_as_32_bits_witness :
  Kind_of (Typ id_field) = reflect.Int /\
  forall L : FloatConv,
    parseValue id_field {| Type_of := Plain reflect.Int; Holds := VInt 7 |} "2147483648"
      = ({| Type_of := Plain reflect.Int; Holds := VInt 7 |}, Some ErrConversion)
    /\ parseValue id_field {| Type_of := Plain reflect.Int; Holds := VInt 7 |} "-2147483648"
      = ({| Type_of := Plain reflect.Int; Holds := VInt (-2147483648) |}, None)
    /\ parseValue id_field {| Type_of := Plain reflect.Int; Holds := VInt 7 |} "abc"
      = ({| Type_of := Plain reflect.Int; Holds := VInt 7 |}, Some ErrConversion).
Proof.
  split; [reflexivity|]. intros L. refine (conj _ (conj _ _)).
  - exact (eq_trans (C6_int_parsed_as_32_bits id_field
             {| Type_of := Plain reflect.Int; Holds := VInt 7 |} "2147483648" eq_refl) eq_refl).
  - exact (eq_trans (C6_int_parsed_as_32_bits id_field
             {| Type_of := Plain reflect.Int; Holds := VInt 7 |} "-2147483648" eq_refl) eq_refl).
  - exact (eq_trans (C6_int_parsed_as_32_bits id_field
             {| Type_of := Plain reflect.Int; Holds := VInt 7 |} "abc" eq_refl) eq_refl).
Defined.

(** ** Printing and reading back decimal numbers *)















(** ** Splitting what was joined *)





(** [strings.Split] with a non-empty separator returns at least one piece. *)
Lemma Split_go_nonempty (sep : string) (skip : nat) (cur s : string) :
  Split_go sep skip cur s <> [].
Proof.
  revert skip cur. induction s as [|c s IH]; intros skip cur; simpl; [done|].
  destruct skip; [|apply IH]. case_match; [done|apply IH].
Qed.

Lemma Split_nonempty (s sep : string) : sep <> "" -> strings_Split s sep <> [].
Proof.
  intros Hsep. unfold strings_Split. destruct sep; [done|]. apply Split_go_nonempty.
Qed.

Lemma effectiveSeparator_nonempty (separator : string) : effectiveSeparator separator <> "".
Proof.
  unfold effectiveSeparator, streq. case_bool_decide; done.
Qed.

Lemma Split_empty_input (sep : string) : sep <> "" -> strings_Split "" sep = [""].
Proof. intros Hsep. by destruct sep. Qed.

(** ** Texts without a comma *)









(** ** One field, encoded then decoded *)








(** ** [Unmarshal] as a whole *)

Section Decode.
Context `{FloatConv}.
Variables (metadata : ObjectMeta) (prefix : string).

(** One iteration, by the error of its field. *)
Lemma Unmarshal_loop_step_ok (n i : nat) (ref : StructValue)
    (tf : StructField) (held : GoValue) :
  ref !! i = Some (tf, held) ->
  fieldError metadata prefix tf held = None ->
  Unmarshal_loop metadata prefix (S n) i ref
    = Unmarshal_loop metadata prefix n (S i)
        (<[i := (tf, decodeField metadata prefix tf held)]> ref).
Proof.
  intros Hi Herr. simpl. rewrite Hi.
  unfold fieldError, decodeField in *.
  destruct (fieldTag tf) as [[d tag]|]; [|by rewrite list_insert_id].
  destruct (map_index _ _) as [value|]; [|done].
  destruct (parseValue _ _ _) as [field' [e|]]; [done|]. done.
Qed.

Lemma Unmarshal_loop_step_error (n i : nat) (ref : StructValue)
    (tf : StructField) (held : GoValue) (e : error) :
  ref !! i = Some (tf, held) ->
  fieldError metadata prefix tf held = Some e ->
  Unmarshal_loop metadata prefix (S n) i ref = (ref, Some e).
Proof.
  intros Hi Herr. simpl. rewrite Hi.
  unfold fieldError in *.
  destruct (fieldTag tf) as [[d tag]|]; [|done].
  destruct (map_index _ _) as [value|]; [|congruence].
  pose proof (parseValue_error_unchanged tf
                {| Type_of := Typ tf; Holds := held |} value e Herr) as Hsame.
  destruct (parseValue _ _ _) as [field' [e'|]]; simpl in *; [|done].
  subst field'. simpl. rewrite list_insert_id by done. congruence.
Qed.

(** The iterations [i .. i+n-1] all go through when none of their fields has
    an error, and only then. *)
Lemma Unmarshal_loop_ok (n i : nat) (ref : StructValue) :
  (i + n <= length ref)%nat ->
  (forall (j : nat) (tf : StructField) (held : GoValue),
     (i <= j < i + n)%nat -> ref !! j = Some (tf, held) ->
     fieldError metadata prefix tf held = None) ->
  (Unmarshal_loop metadata prefix n i ref).2 = None.
Proof.
  revert i ref. induction n as [|n IH]; intros i ref Hlen Hok; [done|].
  destruct (ref !! i) as [[tf held]|] eqn:Hi.
  2:{ apply lookup_ge_None in Hi. lia. }
  rewrite (Unmarshal_loop_step_ok n i ref tf held Hi) by (apply (Hok i); [lia|done]).
  apply IH; [rewrite length_insert; lia|].
  intros j tfj hj Hj Hlook. rewrite list_lookup_insert_ne in Hlook by lia.
  apply (Hok j); [lia|done].
Qed.

Lemma Unmarshal_loop_ok_inv (n i : nat) (ref : StructValue) :
  (Unmarshal_loop metadata prefix n i ref).2 = None ->
  forall (j : nat) (tf : StructField) (held : GoValue),
    (i <= j < i + n)%nat -> ref !! j = Some (tf, held) ->
    fieldError metadata prefix tf held = None.
Proof.
  revert i ref. induction n as [|n IH]; intros i ref Hrun j tfj hj Hj Hlook; [lia|].
  destruct (ref !! i) as [[tf held]|] eqn:Hi.
  2:{ apply lookup_ge_None in Hi. apply lookup_lt_Some in Hlook. lia. }
  destruct (fieldError metadata prefix tf held) as [e|] eqn:Herr.
  { by rewrite (Unmarshal_loop_step_error n i ref tf held e Hi Herr) in Hrun. }
  destruct (decide (j = i)) as [->|Hne]; [congruence|].
  rewrite (Unmarshal_loop_step_ok n i ref tf held Hi Herr) in Hrun.
  apply (IH _ _ Hrun j); [lia|]. by rewrite list_lookup_insert_ne by lia.
Qed.


(** Every field is, after the loop, either as it was or decoded. *)
Lemma Unmarshal_loop_pointwise (n i : nat) (ref : StructValue) (j : nat) :
  (Unmarshal_loop metadata prefix n i ref).1 !! j = ref !! j
  \/ (Unmarshal_loop metadata prefix n i ref).1 !! j
       = decoded metadata prefix <$> ref !! j.
Proof.
  revert i ref. induction n as [|n IH]; intros i ref; [by left|].
  destruct (ref !! i) as [[tf held]|] eqn:Hi; [|left; simpl; by rewrite Hi].
  destruct (fieldError metadata prefix tf held) as [e|] eqn:Herr.
  { left. by rewrite (Unmarshal_loop_step_error n i ref tf held e Hi Herr). }
  rewrite (Unmarshal_loop_step_ok n i ref tf held Hi Herr).
  destruct (decide (j = i)) as [->|Hne].
  - right. rewrite Unmarshal_loop_frame by lia.
    rewrite list_lookup_insert_eq by (by apply lookup_lt_Some in Hi).
    by rewrite Hi.
  - destruct (IH (S i) (<[i := (tf, decodeField metadata prefix tf held)]> ref))
      as [Hsame|Hdec]; [left|right].
    + rewrite Hsame. by apply list_lookup_insert_ne.
    + rewrite Hdec. by rewrite list_lookup_insert_ne.
Qed.

End Decode.

(** [Unmarshal] returns [nil] exactly when no field has an error, that is,
    when the key of every tagged field is present and its value converts;
    the struct then holds, in every tagged field, the converted value. *)
Theorem Unmarshal_succeeds_iff `{FloatConv} (metadata : ObjectMeta) (prefix : string)
    (ref : StructValue) :
  ((Unmarshal metadata (PointerTo (IsStruct ref)) prefix).2 = None
   <-> Forall (fun f => fieldError metadata prefix f.1 f.2 = None) ref)
  /\ ((Unmarshal metadata (PointerTo (IsStruct ref)) prefix).2 = None ->
      (Unmarshal metadata (PointerTo (IsStruct ref)) prefix).1
        = PointerTo (IsStruct (decoded metadata prefix <$> ref))).
Proof.
  unfold Unmarshal.
  destruct (Unmarshal_loop metadata prefix (length ref) 0 ref) as [ref' err] eqn:Hrun.
  simpl. split; [split|].
  - intros ->. apply Forall_lookup. intros j [tf held] Hj.
    apply (Unmarshal_loop_ok_inv metadata prefix (length ref) 0 ref
             ltac:(by rewrite Hrun) j tf held); [|done].
    apply lookup_lt_Some in Hj. lia.
  - intros Hall.
    pose proof (Unmarshal_loop_ok metadata prefix (length ref) 0 ref ltac:(lia)) as Hok.
    rewrite Hrun in Hok. apply Hok. intros j tf held _ Hj.
    by apply (proj1 (Forall_lookup _ _) Hall j (tf, held)).
  - intros ->. do 2 f_equal. apply list_eq. intros j.
    rewrite list_lookup_fmap.
    destruct (ref !! j) as [[tf held]|] eqn:Hj.
    + apply (Unmarshal_loop_decoded _ _ _ _ _ _ Hrun); [|done].
      apply lookup_lt_Some in Hj. lia.
    + apply lookup_ge_None. apply lookup_ge_None in Hj.
      pose proof (Unmarshal_loop_length metadata prefix (length ref) 0 ref) as Hlen.
      rewrite Hrun in Hlen. simpl in Hlen. lia.
Qed.

(** The first error wins.  If field [i] is the first whose iteration has an
    error [e], [Unmarshal] returns [e]; the fields before [i] hold their
    converted values, field [i] and the fields after it are as they were. *)
Theorem Unmarshal_first_error `{FloatConv} (metadata : ObjectMeta) (prefix : string)
    (ref : StructValue) (i : nat) (tf : StructField) (held : GoValue) (e : error) :
  ref !! i = Some (tf, held) ->
  fieldError metadata prefix tf held = Some e ->
  Forall (fun f => fieldError metadata prefix f.1 f.2 = None) (take i ref) ->
  Unmarshal metadata (PointerTo (IsStruct ref)) prefix
    = (PointerTo (IsStruct ((decoded metadata prefix <$> take i ref) ++ drop i ref)),
       Some e).
Proof.
  intros Hi Herr Hbefore.
  pose proof (lookup_lt_Some _ _ _ Hi) as Hlt.
  assert (Hok : (Unmarshal_loop metadata prefix i 0 ref).2 = None).
  { apply Unmarshal_loop_ok; [lia|]. intros j tfj hj Hj Hlook.
    apply (proj1 (Forall_lookup _ _) Hbefore j (tfj, hj)).
    by rewrite lookup_take_lt by lia. }
  destruct (Unmarshal_loop metadata prefix i 0 ref) as [ref_i err] eqn:Hrun.
  simpl in Hok. subst err.
  assert (Hreach : reaches metadata prefix ref i ref_i) by done.
  rewrite (Unmarshal_from_reached _ _ _ _ _ Hreach).
  destruct (length ref - i)%nat as [|n] eqn:Hn; [lia|].
  rewrite (Unmarshal_loop_step_error metadata prefix n i ref_i tf held e);
    [|by rewrite (reaches_lookup _ _ _ _ _ Hreach)|done].
  do 3 f_equal. apply list_eq. intros j.
  pose proof (Unmarshal_loop_length metadata prefix i 0 ref) as Hlen.
  rewrite Hrun in Hlen. simpl in Hlen.
  destruct (decide (j < i)%nat) as [Hj|Hj].
  - rewrite lookup_app_l by (rewrite length_fmap, length_take; lia).
    rewrite list_lookup_fmap, lookup_take_lt by lia.
    destruct (ref !! j) as [[tfj hj]|] eqn:Hlook.
    + apply (Unmarshal_loop_decoded _ _ _ _ _ _ Hrun); [lia|done].
    + apply lookup_ge_None in Hlook. lia.
  - rewrite lookup_app_r by (rewrite length_fmap, length_take; lia).
    rewrite length_fmap, length_take, lookup_drop.
    replace (i `min` length ref)%nat with i by lia.
    replace (i + (j - i))%nat with j by lia.
    replace ref_i with (Unmarshal_loop metadata prefix i 0 ref).1 by by rewrite Hrun.
    apply Unmarshal_loop_frame. lia.
Qed.

(** Whatever it returns, [Unmarshal] keeps the number and the descriptions
    of the fields, and never touches a field without a tag. *)
Theorem Unmarshal_keeps_shape `{FloatConv} (metadata : ObjectMeta) (prefix : string)
    (ref : StructValue) :
  exists ref' : StructValue,
    (Unmarshal metadata (PointerTo (IsStruct ref)) prefix).1 = PointerTo (IsStruct ref')
    /\ ref'.*1 = ref.*1
    /\ Forall2 (fun f' f => fieldTag f.1 = None -> f' = f) ref' ref.
Proof.
  unfold Unmarshal.
  pose proof (Unmarshal_loop_pointwise metadata prefix (length ref) 0 ref) as Hpt.
  pose proof (Unmarshal_loop_length metadata prefix (length ref) 0 ref) as Hlen.
  destruct (Unmarshal_loop metadata prefix (length ref) 0 ref) as [ref' err].
  simpl in *. exists ref'. split; [done|]. split.
  - apply list_eq. intros j. rewrite !list_lookup_fmap.
    destruct (Hpt j) as [-> | ->]; [done|].
    by destruct (ref !! j).
  - apply Forall2_same_length_lookup. split; [done|].
    intros j f' f Hf' Hf Htag.
    destruct (Hpt j) as [Hsame|Hdec]; [congruence|].
    rewrite Hf' , Hf in Hdec. simpl in Hdec. inversion Hdec as [Heq].
    unfold decoded, decodeField. rewrite Htag. by destruct f.
Qed.

(** ** [Marshal] as a whole *)


Lemma selectMap_assign_eq (d : Dict) (key text : string)
    (maps : gmap string string * gmap string string) :
  selectMap d (assign d key text maps) !! key = Some text.
Proof. destruct d; simpl; apply lookup_insert_eq. Qed.

Section Encode.
Context `{FloatConv}.
Variable prefix : string.

(** The iterations from [i] on leave alone every key that no field from [i]
    on is stored under. *)
Lemma Marshal_loop_frame_from (n i : nat) (ref : StructValue)
    (maps : gmap string string * gmap string string) (d : Dict) (k : string) :
  (forall (j : nat) (tf : StructField) (held : GoValue) (tag : string),
     (i <= j)%nat -> ref !! j = Some (tf, held) -> fieldTag tf = Some (d, tag) ->
     k <> fieldKey prefix tag) ->
  selectMap d (Marshal_loop prefix n i ref maps) !! k = selectMap d maps !! k.
Proof.
  revert i maps. induction n as [|n IH]; intros i maps Hfree; simpl; [done|].
  destruct (ref !! i) as [[tf held]|] eqn:Hi; [|done].
  destruct (fieldTag tf) as [[d' tag]|] eqn:Htag.
  2:{ apply IH. intros j tfj hj tagj Hj. apply Hfree. lia. }
  rewrite IH by (intros j tfj hj tagj Hj; apply Hfree; lia).
  apply selectMap_assign_ne. intros ->. by eapply (Hfree i).
Qed.


(** What the loop leaves under a key does not depend on the maps it started
    from, unless no field is stored under that key. *)
Lemma Marshal_loop_overwrites (n i : nat) (ref : StructValue) (d : Dict) (k : string) :
  exists o : option string,
    forall maps : gmap string string * gmap string string,
      selectMap d (Marshal_loop prefix n i ref maps) !! k
        = match o with
          | Some text => Some text
          | None => selectMap d maps !! k
          end.
Proof.
  revert i. induction n as [|n IH]; intros i; simpl; [by exists None|].
  destruct (ref !! i) as [[tf held]|] eqn:Hi; [|by exists None].
  destruct (IH (S i)) as [o Ho].
  destruct (fieldTag tf) as [[d' tag]|] eqn:Htag; [|by exists o].
  destruct o as [text|]; [exists (Some text); intros maps; by rewrite Ho|].
  destruct (decide (d' = d /\ k = fieldKey prefix tag)) as [[-> ->]|Hne].
  - exists (Some (fieldText {| Type_of := Typ tf; Holds := held |})).
    intros maps. rewrite Ho. apply selectMap_assign_eq.
  - exists None. intros maps. rewrite Ho. apply selectMap_assign_ne.
    intros ->. intros ->. by apply Hne.
Qed.

Lemma Marshal_loop_idempotent (n : nat) (ref : StructValue)
    (maps : gmap string string * gmap string string) :
  Marshal_loop prefix n 0 ref (Marshal_loop prefix n 0 ref maps)
    = Marshal_loop prefix n 0 ref maps.
Proof.
  assert (Hlook : forall d k,
    selectMap d (Marshal_loop prefix n 0 ref (Marshal_loop prefix n 0 ref maps)) !! k
      = selectMap d (Marshal_loop prefix n 0 ref maps) !! k).
  { intros d k. destruct (Marshal_loop_overwrites n 0 ref d k) as [o Ho].
    rewrite (Ho (Marshal_loop prefix n 0 ref maps)), (Ho maps). by destruct o. }
  destruct (Marshal_loop prefix n 0 ref (Marshal_loop prefix n 0 ref maps)) as [l2 a2] eqn:H2.
  destruct (Marshal_loop prefix n 0 ref maps) as [l1 a1] eqn:H1.
  f_equal; apply map_eq; intros k.
  - exact (Hlook InLabels k).
  - exact (Hlook InAnnotations k).
Qed.

End Encode.


(** Encoding twice is encoding once. *)
Theorem Marshal_idempotent `{FloatConv} (metadata : ObjectMeta) (data : Argument)
    (prefix : string) :
  Marshal (Marshal metadata data prefix).1 data prefix = Marshal metadata data prefix.
Proof.
  destruct data as [|[ref|]]; try done.
  unfold Marshal. simpl.
  set (maps := Marshal_loop prefix (length ref) 0 ref
                (orEmpty (Labels metadata), orEmpty (Annotations metadata))).
  replace (maps.1, maps.2) with maps by (by destruct maps).
  unfold maps. by rewrite Marshal_loop_idempotent.
Qed.

(** ** The round trip *)




(** ** Instances of the properties above *)

(** The test record decoded from maps whose ["prefix/age"] is not a number:
    [ID] and [Name] are set, then [ErrConversion] comes. *)
Lemma Unmarshal_first_error_witness :
  Data 0 "" 0 [] !! 2%nat
    = Some ({| Name := "Age"; Typ := Plain reflect.Uint; Tag := [("label", "age")] |}, VUint 0)
  /\ forall L : FloatConv,
       Unmarshal
         {| Labels := Some {["prefix/age" := "abc"]};
            Annotations := Annotations test_metadata |}
         (PointerTo (IsStruct (Data 0 "" 0 []))) "prefix"
       = (PointerTo (IsStruct (Data 1 "John" 0 [])), Some ErrConversion).
Proof.
  split; [reflexivity|]. intros L.
  refine (Unmarshal_first_error
    {| Labels := Some {["prefix/age" := "abc"]}; Annotations := Annotations test_metadata |}
    "prefix" (Data 0 "" 0 []) 2
    {| Name := "Age"; Typ := Plain reflect.Uint; Tag := [("label", "age")] |}
    (VUint 0) ErrConversion _ _ _).
  - reflexivity.
  - reflexivity.
  - repeat (constructor; [reflexivity|]). constructor.
Defined.


(** ** Integer fields of every width *)

(** A field of a signed integer kind (other than [time.Duration]) accepts
    exactly the base-10 texts, with an optional sign, whose number fits the
    width of the kind, [int] counting as 32 bits; any other text gives
    [ErrConversion] and leaves the field alone. *)
Theorem parseValue_signed_integer `{FloatConv} (typeField : StructField)
    (valueField : Value) (value : string) (bits : Z) :
  signedBits (Kind_of (Typ typeField)) = Some bits ->
  Type_String (Typ typeField) <> "time.Duration" ->
  parseValue typeField valueField value =
    match decimalText value with
    | Some n =>
        if inSigned bits n then (Value_Set valueField (VInt n), None)
        else (valueField, Some ErrConversion)
    | None => (valueField, Some ErrConversion)
    end.
Proof.
  intros Hbits Hname. unfold parseValue.
  destruct (Kind_of (Typ typeField)); try done;
    inversion Hbits; subst bits;
    rewrite ?(bool_decide_eq_false_2 _ Hname);
    unfold streq; rewrite ?(bool_decide_eq_false_2 _ Hname);
    rewrite ParseInt_spec by lia;
    destruct (decimalText value) as [n|]; try done;
    by destruct (inSigned _ n).
Qed.

(** A field of an unsigned integer kind accepts exactly the runs of decimal
    digits, without any sign, whose number fits the width of the kind,
    [uint] counting as 32 bits. *)
Theorem parseValue_unsigned_integer `{FloatConv} (typeField : StructField)
    (valueField : Value) (value : string) (bits : Z) :
  unsignedBits (Kind_of (Typ typeField)) = Some bits ->
  parseValue typeField valueField value =
    match unsignedText value with
    | Some n =>
        if inUnsigned bits n then (Value_Set valueField (VUint n), None)
        else (valueField, Some ErrConversion)
    | None => (valueField, Some ErrConversion)
    end.
Proof.
  intros Hbits. unfold parseValue.
  destruct (Kind_of (Typ typeField)); try done;
    inversion Hbits; subst bits;
    rewrite ParseUint_spec by lia;
    destruct (unsignedText value) as [n|]; try done;
    by destruct (inUnsigned _ n).
Qed.

Lemma parseValue_signed_integer_witness :
  signedBits (Kind_of (Plain reflect.Int8)) = Some 8 /\
  forall L : FloatConv,
    parseValue {| Name := "Level"; Typ := Plain reflect.Int8; Tag := [("label", "level")] |}
        {| Type_of := Plain reflect.Int8; Holds := VInt 0 |} "-129"
      = ({| Type_of := Plain reflect.Int8; Holds := VInt 0 |}, Some ErrConversion)
    /\ parseValue {| Name := "Level"; Typ := Plain reflect.Int8; Tag := [("label", "level")] |}
        {| Type_of := Plain reflect.Int8; Holds := VInt 0 |} "+127"
      = ({| Type_of := Plain reflect.Int8; Holds := VInt 127 |}, None).
Proof.
  split; [reflexivity|]. intros L. refine (conj _ _).
  - exact (eq_trans (parseValue_signed_integer
             {| Name := "Level"; Typ := Plain reflect.Int8; Tag := [("label", "level")] |}
             {| Type_of := Plain reflect.Int8; Holds := VInt 0 |} "-129" 8
             eq_refl ltac:(discriminate)) eq_refl).
  - exact (eq_trans (parseValue_signed_integer
             {| Name := "Level"; Typ := Plain reflect.Int8; Tag := [("label", "level")] |}
             {| Type_of := Plain reflect.Int8; Holds := VInt 0 |} "+127" 8
             eq_refl ltac:(discriminate)) eq_refl).
Defined.

Lemma parseValue_unsigned_integer_witness :
  unsignedBits (Kind_of (Plain reflect.Uint)) = Some 32 /\
  forall L : FloatConv,
    parseValue {| Name := "Age"; Typ := Plain reflect.Uint; Tag := [("label", "age")] |}
        {| Type_of := Plain reflect.Uint; Holds := VUint 0 |} "+30"
      = ({| Type_of := Plain reflect.Uint; Holds := VUint 0 |}, Some ErrConversion)
    /\ parseValue {| Name := "Age"; Typ := Plain reflect.Uint; Tag := [("label", "age")] |}
        {| Type_of := Plain reflect.Uint; Holds := VUint 0 |} "4294967296"
      = ({| Type_of := Plain reflect.Uint; Holds := VUint 0 |}, Some ErrConversion).
Proof.
  split; [reflexivity|]. intros L. refine (conj _ _).
  - exact (eq_trans (parseValue_unsigned_integer
             {| Name := "Age"; Typ := Plain reflect.Uint; Tag := [("label", "age")] |}
             {| Type_of := Plain reflect.Uint; Holds := VUint 0 |} "+30" 32 eq_refl) eq_refl).
  - exact (eq_trans (parseValue_unsigned_integer
             {| Name := "Age"; Typ := Plain reflect.Uint; Tag := [("label", "age")] |}
             {| Type_of := Plain reflect.Uint; Holds := VUint 0 |} "4294967296" 32 eq_refl)
             eq_refl).
Defined.

(** ** What a successful decode stores *)

Lemma ParseInt_in_range (s : string) (bits n : Z) :
  2 <= bits <= 64 -> number (ParseInt s bits) = Some n -> inSigned bits n = true.
Proof.
  intros Hb. rewrite ParseInt_spec by done.
  destruct (decimalText s) as [m|]; [|done].
  destruct (inSigned bits m) eqn:Hin; [|done]. congruence.
Qed.

Lemma ParseUint_in_range (s : string) (bits n : Z) :
  1 <= bits <= 64 -> number (ParseUint s bits) = Some n -> inUnsigned bits n = true.
Proof.
  intros Hb. rewrite ParseUint_spec by done.
  destruct (unsignedText s) as [m|]; [|done].
  destruct (inUnsigned bits m) eqn:Hin; [|done]. congruence.
Qed.

Lemma int64_in_range (z : Z) : inSigned 64 (int64 z) = true.
Proof.
  unfold inSigned, int64.
  pose proof (Z.mod_pos_bound (z + 2 ^ 63) (2 ^ 64) ltac:(lia)).
  change (2 ^ (64 - 1)) with (2 ^ 63).
  assert (2 ^ 64 = 2 * 2 ^ 63) by reflexivity. lia.
Qed.

Lemma ParseDuration_in_range (s : string) (d : Z) :
  ParseDuration s = Some d -> inSigned 64 d = true.
Proof.
  unfold ParseDuration.
  destruct (match s with
            | "" => (false, s)
            | String c rest => _
            end) as [neg s1].
  destruct (streq s1 "0"); [by intros [= <-]|].
  destruct (streq s1 ""); [done|].
  destruct (ParseDuration_loop _ _ _) as [d0|]; [|done].
  destruct neg; [intros [= <-]; apply int64_in_range|].
  destruct (_ <? _); [done|]. intros [= <-]. apply int64_in_range.
Qed.

Lemma elementConv_fits `{FloatConv} (t : GoType) (conv : string -> option GoValue)
    (tok : string) (x : GoValue) :
  elementConv t = Some conv -> conv tok = Some x -> elementFits t x.
Proof.
  unfold elementConv.
  repeat (case_bool_decide; [subst t; intros [= <-]; simpl; intros Hx|]).
  - by inversion Hx.
  - destruct (ParseBool tok); by inversion Hx.
  - destruct (number (ParseInt tok 32)) as [n|] eqn:Hn; inversion Hx; simpl.
    left. split; [done|]. by apply (ParseInt_in_range tok).
  - destruct (number (ParseUint tok 32)) as [n|] eqn:Hn; inversion Hx; simpl.
    left. split; [done|]. by apply (ParseUint_in_range tok).
  - destruct (number (ParseInt tok 64)) as [n|] eqn:Hn; inversion Hx; simpl.
    right. split; [by left|]. by apply (ParseInt_in_range tok).
  - destruct (number (ParseUint tok 64)) as [n|] eqn:Hn; inversion Hx; simpl.
    right. split; [done|]. by apply (ParseUint_in_range tok).
  - destruct (ParseFloat tok 32); inversion Hx; simpl. by left.
  - destruct (ParseFloat tok 64); inversion Hx; simpl. by right.
  - destruct (ParseDuration tok) as [n|] eqn:Hn; inversion Hx; simpl.
    right. split; [by right|]. by apply (ParseDuration_in_range tok).
  - done.
Qed.

Lemma setScalar_ok {A} (valueField : Value) (wrap : A -> GoValue)
    (parsed : option A) (v' : Value) :
  setScalar valueField wrap parsed = (v', None) ->
  exists x, parsed = Some x /\ v' = Value_Set valueField (wrap x).
Proof. destruct parsed as [x|]; [|done]. intros [= <-]. by exists x. Qed.

Lemma parseValue_fits `{FloatConv} (typeField : StructField) (held : GoValue)
    (value : string) (v' : Value) :
  parseValue typeField {| Type_of := Typ typeField; Holds := held |} value = (v', None) ->
  Type_of v' = Typ typeField /\ fits (Typ typeField) (Holds v').
Proof.
  unfold parseValue, fits.
  destruct (Kind_of (Typ typeField)) eqn:Hkind; try done;
    try (intros Hset; apply setScalar_ok in Hset as (x & Hx & ->); simpl;
         split; [done|];
         first [ done
               | by apply (ParseInt_in_range value)
               | by apply (ParseUint_in_range value) ]).
  - (* Int64 *)
    destruct (streq _ _); intros Hset;
      apply setScalar_ok in Hset as (x & Hx & ->); simpl; (split; [done|]).
    + by apply (ParseDuration_in_range value).
    + by apply (ParseInt_in_range value).
  - (* Slice *)
    rewrite handleSlice_spec. simpl Type_of.
    destruct (elementConv (Typ typeField)) as [conv|] eqn:Hconv; [|done].
    destruct (mapM conv _) as [vs|] eqn:HmapM; [|done].
    intros [= <-]. simpl. split; [done|].
    apply mapM_Some_1 in HmapM.
    split.
    + intros ->. apply Forall2_nil_inv_r in HmapM.
      by apply (Split_nonempty value ",").
    + apply Forall_forall. intros x Hx.
      apply list_elem_of_lookup in Hx as [j Hj].
      destruct (Forall2_lookup_r _ _ _ _ _ HmapM Hj) as (tok & _ & Htok).
      by apply (elementConv_fits _ conv tok).
  - intros [= <-]. by simpl.
Qed.

(** After a call of [Unmarshal] that returned [nil], every tagged field
    holds a value of the shape and the width of its type: integers within
    the bits of their kind ([int] and [uint] within 32), sequences with at
    least one element. *)
Theorem Unmarshal_stores_fitting_values `{FloatConv} (metadata : ObjectMeta)
    (prefix : string) (ref ref' : StructValue) :
  Unmarshal metadata (PointerTo (IsStruct ref)) prefix = (PointerTo (IsStruct ref'), None) ->
  Forall (fun f => is_Some (fieldTag f.1) -> fits (Typ f.1) f.2) ref'.
Proof.
  unfold Unmarshal.
  destruct (Unmarshal_loop metadata prefix (length ref) 0 ref) as [ref1 err] eqn:Hrun.
  intros [= -> ->].
  pose proof (Unmarshal_loop_length metadata prefix (length ref) 0 ref) as Hlen.
  rewrite Hrun in Hlen. simpl in Hlen.
  apply Forall_lookup. intros j [tf' v'] Hj' [dt Htag]. simpl in *.
  pose proof (lookup_lt_Some _ _ _ Hj') as Hlt.
  destruct (ref !! j) as [[tf held]|] eqn:Hj.
  2:{ apply lookup_ge_None in Hj. lia. }
  pose proof (Unmarshal_loop_decoded _ _ _ _ _ _ Hrun j tf held ltac:(lia) Hj) as Hdec.
  rewrite Hj' in Hdec. inversion Hdec; subst tf' v'.
  pose proof (Unmarshal_loop_ok_inv metadata prefix (length ref) 0 ref
                ltac:(by rewrite Hrun) j tf held ltac:(lia) Hj) as Hok.
  unfold fieldError in Hok. unfold decodeField. rewrite Htag in *.
  destruct dt as [d tag].
  destruct (map_index _ _) as [value|]; [|done].
  destruct (parseValue tf _ value) as [field' err] eqn:Hparse.
  simpl in Hok. subst err. simpl.
  by apply (parseValue_fits tf held value).
Qed.

Lemma Unmarshal_stores_fitting_values_witness :
  length (Data 0 "" 0 []) = 4%nat /\
  forall L : FloatConv,
    Forall (fun f => is_Some (fieldTag f.1) -> fits (Typ f.1) f.2)
      (Data 1 "John" 30 ["cooking"; "swimming"; "driving"]).
Proof.
  split; [reflexivity|]. intros L.
  refine (Unmarshal_stores_fitting_values test_metadata "prefix" (Data 0 "" 0 []) _ _).
  reflexivity.
Defined.

(** ** Empty sequences *)

(** An empty sequence does not survive.  [Marshal] writes it as the empty
    text; decoding that text into a [[]string] field gives the one-element
    sequence holding the empty string, and into a field of type [[]bool],
    [[]int], [[]uint], [[]int64], [[]uint64] or [[]time.Duration] gives
    [ErrConversion]. *)
Theorem empty_sequence_not_restored `{FloatConv} (metadata : ObjectMeta) (prefix : string)
    (tf : StructField) (held : GoValue) (d : Dict) (tag : string) :
  fieldTag tf = Some (d, tag) ->
  Typ tf ∈ [sliceOfStrings; sliceOfBools; sliceOfInts; sliceOfUints; sliceOfInt64s;
            sliceOfUint64s; sliceOfDurations] ->
  Unmarshal (Marshal metadata (PointerTo (IsStruct [(tf, VSlice [])])) prefix).1
      (PointerTo (IsStruct [(tf, held)])) prefix
    = if bool_decide (Typ tf = sliceOfStrings)
      then (PointerTo (IsStruct [(tf, VSlice [VString ""])]), None)
      else (PointerTo (IsStruct [(tf, held)]), Some ErrConversion).
Proof.
  intros Htag Htyp.
  assert (Hkind : Kind_of (Typ tf) = reflect.Slice).
  { repeat (apply elem_of_cons in Htyp as [->|Htyp]; [done|]). by apply elem_of_nil in Htyp. }
  assert (Htext : fieldText {| Type_of := Typ tf; Holds := VSlice [] |} = "").
  { unfold fieldText, Value_Kind. simpl. by rewrite bool_decide_eq_true_2. }
  assert (Hlook : map_index
            (selectDict (Marshal metadata (PointerTo (IsStruct [(tf, VSlice [])])) prefix).1 d)
            (fieldKey prefix tag) = Some "").
  { unfold Marshal. simpl. rewrite Htag, Htext.
    destruct d; simpl; apply lookup_insert_eq. }
  set (encoded := (Marshal metadata (PointerTo (IsStruct [(tf, VSlice [])])) prefix).1) in *.
  unfold Unmarshal. cbn [Unmarshal_loop length lookup list_lookup]. rewrite Htag, Hlook.
  unfold parseValue. rewrite Hkind. rewrite handleSlice_spec. simpl Type_of.
  repeat (apply elem_of_cons in Htyp as [->|Htyp]; [reflexivity|]).
  by apply elem_of_nil in Htyp.
Qed.

Lemma empty_sequence_not_restored_witness :
  fieldTag ports_field = Some (InAnnotations, "ports") /\
  forall L : FloatConv,
    Unmarshal (Marshal no_metadata (PointerTo (IsStruct [(ports_field, VSlice [])])) "p").1
      (PointerTo (IsStruct [(ports_field, VSlice [VInt 80])])) "p"
    = (PointerTo (IsStruct [(ports_field, VSlice [VInt 80])]), Some ErrConversion).
Proof.
  split; [reflexivity|]. intros L.
  refine (empty_sequence_not_restored no_metadata "p" ports_field (VSlice [VInt 80])
            InAnnotations "ports" _ _).
  - reflexivity.
  - do 2 constructor. constructor 1.
Defined.

(** ** What [Unmarshal] reads and what [Marshal] writes *)

Lemma Unmarshal_loop_agree `{FloatConv} (metadata metadata' : ObjectMeta)
    (prefix : string) (n i : nat) (ref : StructValue) :
  (forall (j : nat) (tf : StructField) (held : GoValue) (d : Dict) (tag : string),
     ref !! j = Some (tf, held) -> fieldTag tf = Some (d, tag) ->
     map_index (selectDict metadata d) (fieldKey prefix tag)
       = map_index (selectDict metadata' d) (fieldKey prefix tag)) ->
  Unmarshal_loop metadata prefix n i ref = Unmarshal_loop metadata' prefix n i ref.
Proof.
  revert i ref. induction n as [|n IH]; intros i ref Hagree; simpl; [done|].
  destruct (ref !! i) as [[tf held]|] eqn:Hi; [|done].
  destruct (fieldTag tf) as [[d tag]|] eqn:Htag; [|by apply IH].
  rewrite <- (Hagree i tf held d tag Hi Htag).
  destruct (map_index _ _) as [value|]; [|done].
  destruct (parseValue _ _ _) as [field' [e|]]; [done|].
  apply IH. intros j tfj hj dj tagj Hj Htagj.
  destruct (decide (j = i)) as [->|Hne].
  - rewrite list_lookup_insert_eq in Hj by (by apply lookup_lt_Some in Hi).
    inversion Hj; subst. by apply (Hagree i tfj held).
  - rewrite list_lookup_insert_ne in Hj by done. by apply (Hagree j tfj hj).
Qed.

(** [Unmarshal] reads the maps only under the keys of the tagged fields:
    two metadata that agree, for every tagged field, on the entry of its map
    under its key give the same result, whatever else they hold. *)
Theorem Unmarshal_reads_only_its_keys `{FloatConv} (metadata metadata' : ObjectMeta)
    (prefix : string) (ref : StructValue) :
  Forall (fun f => forall (d : Dict) (tag : string),
            fieldTag f.1 = Some (d, tag) ->
            map_index (selectDict metadata d) (fieldKey prefix tag)
              = map_index (selectDict metadata' d) (fieldKey prefix tag)) ref ->
  Unmarshal metadata (PointerTo (IsStruct ref)) prefix
    = Unmarshal metadata' (PointerTo (IsStruct ref)) prefix.
Proof.
  intros Hagree. unfold Unmarshal.
  rewrite (Unmarshal_loop_agree metadata metadata'); [done|].
  intros j tf held d tag Hj Htag.
  by apply (proj1 (Forall_lookup _ _) Hagree j (tf, held) Hj d tag).
Qed.

(** Extra labels and annotations are ignored. *)
Lemma Unmarshal_reads_only_its_keys_witness :
  map_index (Labels test_metadata) "app" = None /\
  forall L : FloatConv,
    Unmarshal
      {| Labels := (<["app" := "web"]>) <$> Labels test_metadata;
         Annotations := (<["owner" := "ops"]>) <$> Annotations test_metadata |}
      (PointerTo (IsStruct (Data 0 "" 0 []))) "prefix"
    = Unmarshal test_metadata (PointerTo (IsStruct (Data 0 "" 0 []))) "prefix".
Proof.
  split; [reflexivity|]. intros L.
  apply Unmarshal_reads_only_its_keys.
  repeat (constructor; [intros d tag Htag; vm_compute in Htag;
                        inversion Htag; subst; reflexivity|]).
  constructor.
Defined.




(** ** Text fields are stored without loss *)








(** ** Decoding twice *)

Lemma parseValue_held_irrelevant `{FloatConv} (typeField : StructField) (t : GoType)
    (held held' : GoValue) (value : string) :
  parseValue typeField {| Type_of := t; Holds := held' |} value
    = match parseValue typeField {| Type_of := t; Holds := held |} value with
      | (v, None) => (v, None)
      | (_, Some e) => ({| Type_of := t; Holds := held' |}, Some e)
      end.
Proof.
  unfold parseValue.
  destruct (Kind_of (Typ typeField)); try done;
    try (unfold setScalar; by case_match).
  - case_match; unfold setScalar; by case_match.
  - rewrite !handleSlice_spec. simpl.
    destruct (elementConv t) as [conv|]; [|done].
    by destruct (mapM conv _).
Qed.

Lemma fieldError_held_irrelevant `{FloatConv} (metadata : ObjectMeta) (prefix : string)
    (tf : StructField) (held held' : GoValue) :
  fieldError metadata prefix tf held' = fieldError metadata prefix tf held.
Proof.
  unfold fieldError.
  destruct (fieldTag tf) as [[d tag]|]; [|done].
  destruct (map_index _ _) as [value|]; [|done].
  rewrite (parseValue_held_irrelevant tf (Typ tf) held held').
  by destruct (parseValue tf _ value) as [v [e|]].
Qed.

Lemma decodeField_again `{FloatConv} (metadata : ObjectMeta) (prefix : string)
    (tf : StructField) (held : GoValue) :
  fieldError metadata prefix tf held = None ->
  decodeField metadata prefix tf (decodeField metadata prefix tf held)
    = decodeField metadata prefix tf held.
Proof.
  unfold fieldError, decodeField.
  destruct (fieldTag tf) as [[d tag]|]; [|done].
  destruct (map_index _ _) as [value|]; [|done].
  intros Hok.
  rewrite (parseValue_held_irrelevant tf (Typ tf) held
             (Holds (parseValue tf {| Type_of := Typ tf; Holds := held |} value).1)).
  destruct (parseValue tf _ value) as [v [e|]]; [done|]. done.
Qed.

Lemma Unmarshal_loop_again `{FloatConv} (metadata : ObjectMeta) (prefix : string)
    (n i : nat) (ref : StructValue) :
  Unmarshal_loop metadata prefix n i (Unmarshal_loop metadata prefix n i ref).1
    = Unmarshal_loop metadata prefix n i ref.
Proof.
  revert i ref. induction n as [|n IH]; intros i ref; [done|].
  destruct (ref !! i) as [[tf held]|] eqn:Hi.
  2:{ simpl. rewrite Hi. simpl. by rewrite ?Hi. }
  destruct (fieldError metadata prefix tf held) as [e|] eqn:Herr.
  { rewrite (Unmarshal_loop_step_error metadata prefix n i ref tf held e Hi Herr). simpl.
    by apply (Unmarshal_loop_step_error metadata prefix n i ref tf held e). }
  rewrite (Unmarshal_loop_step_ok metadata prefix n i ref tf held Hi Herr).
  set (ref1 := <[i := (tf, decodeField metadata prefix tf held)]> ref).
  assert (Hi1 : (Unmarshal_loop metadata prefix n (S i) ref1).1 !! i
                = Some (tf, decodeField metadata prefix tf held)).
  { rewrite Unmarshal_loop_frame by lia. unfold ref1.
    apply list_lookup_insert_eq. by apply lookup_lt_Some in Hi. }
  rewrite (Unmarshal_loop_step_ok metadata prefix n i _ tf _ Hi1)
    by (by rewrite fieldError_held_irrelevant with (held := held)).
  rewrite decodeField_again by done.
  rewrite list_insert_id by done. apply IH.
Qed.

(** Decoding the same metadata a second time changes nothing: the struct
    and the error are those of the first call. *)
Theorem Unmarshal_idempotent `{FloatConv} (metadata : ObjectMeta) (data : Argument)
    (prefix : string) :
  Unmarshal metadata (Unmarshal metadata data prefix).1 prefix
    = Unmarshal metadata data prefix.
Proof.
  destruct data as [|[ref|]]; try done.
  unfold Unmarshal.
  pose proof (Unmarshal_loop_again metadata prefix (length ref) 0 ref) as Hagain.
  pose proof (Unmarshal_loop_length metadata prefix (length ref) 0 ref) as Hlen.
  destruct (Unmarshal_loop metadata prefix (length ref) 0 ref) as [ref' err].
  simpl in *. by rewrite Hlen, Hagain.
Qed.

(** ** binary64 arithmetic on small integers is exact *)













(** ** Reading back a printed duration *)















(** *** One term of a duration *)

Lemma unitSpan_stop (c : ascii) (s : string) :
  isDigit c = true -> unitSpan (String c s) = ("", String c s).
Proof. intros Hc. simpl. by rewrite Hc, orb_true_r. Qed.





(** *** The whole text *)












(** ** Fields without floating-point numbers *)




(** ** Prefixes keep records apart *)

Lemma noSlash_app (s t : string) : noSlash (s +:+ String "/" t) = false.
Proof.
  induction s as [|c s IH]; simpl; [done|]. rewrite IH. by rewrite andb_false_r.
Qed.

(** With tags free of ["/"], a key determines its prefix. *)
Lemma fieldKey_prefix_inj (p q tag tag' : string) :
  noSlash tag = true -> noSlash tag' = true ->
  fieldKey p tag = fieldKey q tag' -> p = q.
Proof.
  unfold fieldKey. change ("/" +:+ tag) with (String "/" tag).
  change ("/" +:+ tag') with (String "/" tag').
  intros Htag Htag'. revert q.
  induction p as [|a p IH]; intros [|b q]; cbn [String.append]; intros Heq.
  - done.
  - injection Heq as <- ->. by rewrite noSlash_app in Htag.
  - injection Heq as -> <-. by rewrite noSlash_app in Htag'.
  - injection Heq as -> Heq. f_equal. by apply IH.
Qed.

Lemma Marshal_reads_as_before `{FloatConv} (metadata : ObjectMeta) (other : StructValue)
    (q : string) (d : Dict) (k : string) :
  (forall (j : nat) (tf : StructField) (held : GoValue) (tag : string),
     other !! j = Some (tf, held) -> fieldTag tf = Some (d, tag) ->
     k <> fieldKey q tag) ->
  map_index (selectDict (Marshal metadata (PointerTo (IsStruct other)) q).1 d) k
    = map_index (selectDict metadata d) k.
Proof.
  intros Hfree. unfold Marshal. cbn [fst].
  pose proof (Marshal_loop_frame q (length other) 0 other
                (orEmpty (Labels metadata), orEmpty (Annotations metadata)) d k Hfree)
    as Hframe.
  destruct d; simpl in *; rewrite Hframe.
  - by destruct (Annotations metadata).
  - by destruct (Labels metadata).
Qed.

(** Records kept under different prefixes do not disturb each other.  When
    no tag contains ["/"], writing a struct with [Marshal] under the prefix
    [q] changes nothing for [Unmarshal] under another prefix [p]: it returns
    the same error, or [nil], and stores the same values as it did on the
    metadata before. *)
Theorem other_prefix_undisturbed `{FloatConv} (metadata : ObjectMeta)
    (other ref : StructValue) (p q : string) :
  p <> q -> slashFreeTags other -> slashFreeTags ref ->
  Unmarshal (Marshal metadata (PointerTo (IsStruct other)) q).1
      (PointerTo (IsStruct ref)) p
    = Unmarshal metadata (PointerTo (IsStruct ref)) p.
Proof.
  intros Hpq Hother Href. unfold Unmarshal.
  rewrite (Unmarshal_loop_agree _ metadata); [done|].
  intros j tf held d tag Hj Htag.
  apply Marshal_reads_as_before.
  intros j' tf' held' tag' Hj' Htag' Heq.
  apply Hpq, (fieldKey_prefix_inj p q tag tag'); [| |done].
  - pose proof (proj1 (Forall_lookup _ _) Href j _ Hj) as Hs. simpl in Hs.
    by rewrite Htag in Hs.
  - pose proof (proj1 (Forall_lookup _ _) Hother j' _ Hj') as Hs. simpl in Hs.
    by rewrite Htag' in Hs.
Qed.

Lemma other_prefix_undisturbed_witness :
  slashFreeTags (Data 1 "John" 30 ["cooking"])
  /\ forall L : FloatConv,
       Unmarshal (Marshal test_metadata
                    (PointerTo (IsStruct (Data 2 "Jane" 41 ["chess"; "go"]))) "backup").1
           (PointerTo (IsStruct (Data 0 "" 0 []))) "prefix"
       = Unmarshal test_metadata (PointerTo (IsStruct (Data 0 "" 0 []))) "prefix".
Proof.
  split; [repeat constructor|]. intros L.
  apply (other_prefix_undisturbed test_metadata (Data 2 "Jane" 41 ["chess"; "go"])
           (Data 0 "" 0 []) "prefix" "backup").
  - discriminate.
  - repeat constructor.
  - repeat constructor.
Defined.

(** ** The errors *)

Lemma parseValue_errors `{FloatConv} (typeField : StructField) (valueField : Value)
    (value : string) (e : error) :
  (parseValue typeField valueField value).2 = Some e ->
  e = ErrConversion \/ e = ErrUnsupportedType.
Proof.
  unfold parseValue, setScalar.
  destruct (Kind_of (Typ typeField)); simpl;
    repeat case_match; simpl; intros [= <-]; auto.
Qed.

Lemma Unmarshal_loop_errors `{FloatConv} (metadata : ObjectMeta) (prefix : string)
    (n i : nat) (ref : StructValue) (e : error) :
  (Unmarshal_loop metadata prefix n i ref).2 = Some e ->
  e = ErrValueMissing \/ e = ErrConversion \/ e = ErrUnsupportedType.
Proof.
  revert i ref. induction n as [|n IH]; intros i ref; simpl; [done|].
  destruct (ref !! i) as [[tf held]|]; [|done].
  destruct (fieldTag tf) as [[d tag]|]; [|apply IH].
  destruct (map_index _ _) as [value|]; [|intros [= <-]; by left].
  pose proof (parseValue_errors tf {| Type_of := Typ tf; Holds := held |} value) as Hpv.
  destruct (parseValue _ _ _) as [rf [e'|]]; simpl in *.
  - intros [= <-]. right. by apply Hpv.
  - apply IH.
Qed.

(** [ErrNotStructPointer] is the answer to an argument that is not a pointer
    to a struct, and to nothing else.  [Unmarshal] and [Marshal] return it
    exactly for such an argument, and then the argument and the metadata are
    as they were: [Marshal] does not even create the missing maps.  For a
    pointer to a struct, [Marshal] returns [nil] and leaves both maps
    non-nil, and an error of [Unmarshal] is one of [ErrValueMissing],
    [ErrConversion] and [ErrUnsupportedType]. *)
Theorem not_struct_pointer_exactly `{FloatConv} (metadata : ObjectMeta)
    (data : Argument) (prefix : string) :
  ((Unmarshal metadata data prefix).2 = Some ErrNotStructPointer
   <-> ~ isStructPointer data)
  /\ ((Marshal metadata data prefix).2 = Some ErrNotStructPointer
      <-> ~ isStructPointer data)
  /\ (~ isStructPointer data ->
      (Unmarshal metadata data prefix).1 = data
      /\ (Marshal metadata data prefix).1 = metadata)
  /\ (isStructPointer data ->
      (Marshal metadata data prefix).2 = None
      /\ is_Some (Labels (Marshal metadata data prefix).1)
      /\ is_Some (Annotations (Marshal metadata data prefix).1)
      /\ forall e, (Unmarshal metadata data prefix).2 = Some e ->
           e = ErrValueMissing \/ e = ErrConversion \/ e = ErrUnsupportedType).
Proof.
  assert (Hloop : forall ref e,
            (Unmarshal metadata (PointerTo (IsStruct ref)) prefix).2 = Some e ->
            e = ErrValueMissing \/ e = ErrConversion \/ e = ErrUnsupportedType).
  { intros ref e. unfold Unmarshal.
    pose proof (Unmarshal_loop_errors metadata prefix (length ref) 0 ref e) as Herr.
    by destruct (Unmarshal_loop _ _ _ _ _) as [ref' err]. }
  assert (Hno : forall data', (forall ref, data' <> PointerTo (IsStruct ref)) ->
            ~ isStructPointer data') by (intros data' Hne [ref Href]; by apply (Hne ref)).
  destruct data as [|[ref|]].
  - pose proof (Hno NonPointer ltac:(done)) as Hnot.
    split; [done|]. split; [done|]. split; [done|]. by intros Hyes.
  - assert (Hyes : isStructPointer (PointerTo (IsStruct ref))) by (by exists ref).
    split; [|split; [|split]].
    + split; [|done]. intros Herr. by destruct (Hloop ref _ Herr) as [[=]|[[=]|[=]]].
    + split; done.
    + done.
    + intros _. split; [done|]. split; [done|]. split; [done|]. apply Hloop.
  - pose proof (Hno (PointerTo NotStruct) ltac:(done)) as Hnot.
    split; [done|]. split; [done|]. split; [done|]. by intros Hyes.
Qed.

(** ** Storing a record again *)

(** Under a given key the loop either stores a text, whatever the maps held,
    or stores nothing at all. *)
Lemma Marshal_loop_written_or_not `{FloatConv} (prefix : string) (n i : nat)
    (ref : StructValue) (d : Dict) (k : string) :
  (length ref <= i + n)%nat ->
  (exists text : string,
     forall maps : gmap string string * gmap string string,
       selectMap d (Marshal_loop prefix n i ref maps) !! k = Some text)
  \/ (forall (j : nat) (tf : StructField) (held : GoValue) (tag : string),
        (i <= j)%nat -> ref !! j = Some (tf, held) -> fieldTag tf = Some (d, tag) ->
        k <> fieldKey prefix tag).
Proof.
  revert i. induction n as [|n IH]; intros i Hlen.
  { right. intros j tf held tag Hj Hlook. apply lookup_lt_Some in Hlook. lia. }
  simpl. destruct (ref !! i) as [[tf held]|] eqn:Hi.
  2:{ right. intros j tfj hj tag Hj Hlook.
      apply lookup_ge_None in Hi. apply lookup_lt_Some in Hlook. lia. }
  destruct (IH (S i) ltac:(lia)) as [[text Htext]|Hfree].
  { left. exists text. intros maps. by destruct (fieldTag tf) as [[d' tag]|]. }
  destruct (fieldTag tf) as [[d' tag]|] eqn:Htag.
  - destruct (decide (d' = d /\ k = fieldKey prefix tag)) as [[-> ->]|Hne].
    + left. exists (fieldText {| Type_of := Typ tf; Holds := held |}). intros maps.
      rewrite Marshal_loop_frame_from by done. apply selectMap_assign_eq.
    + right. intros j tfj hj tagj Hj Hlook Htagj.
      destruct (decide (j = i)) as [->|Hji]; [|apply (Hfree j tfj hj); [lia|done..]].
      rewrite Hi in Hlook. injection Hlook as <- <-.
      rewrite Htag in Htagj. injection Htagj as -> ->. intros ->. by apply Hne.
  - right. intros j tfj hj tagj Hj Hlook Htagj.
    destruct (decide (j = i)) as [->|Hji]; [|apply (Hfree j tfj hj); [lia|done..]].
    rewrite Hi in Hlook. injection Hlook as <- <-. by rewrite Htag in Htagj.
Qed.

(** The last write wins.  Storing a struct over an earlier value of the same
    struct type, under the same prefix, leaves the metadata as if the earlier
    value had never been stored: nothing of it remains. *)
Theorem Marshal_replaces_earlier `{FloatConv} (metadata : ObjectMeta) (prefix : string)
    (earlier later : StructValue) :
  earlier.*1 = later.*1 ->
  Marshal (Marshal metadata (PointerTo (IsStruct earlier)) prefix).1
      (PointerTo (IsStruct later)) prefix
    = Marshal metadata (PointerTo (IsStruct later)) prefix.
Proof.
  intros Htype. unfold Marshal. cbn [fst snd orEmpty Labels Annotations].
  set (maps := (orEmpty (Labels metadata), orEmpty (Annotations metadata))).
  set (mid := Marshal_loop prefix (length earlier) 0 earlier maps).
  replace (mid.1, mid.2) with mid by (by destruct mid).
  assert (Hlook : forall d k,
            selectMap d (Marshal_loop prefix (length later) 0 later mid) !! k
            = selectMap d (Marshal_loop prefix (length later) 0 later maps) !! k).
  { intros d k.
    destruct (Marshal_loop_written_or_not prefix (length later) 0 later d k ltac:(lia))
      as [[text Htext]|Hfree].
    - by rewrite !Htext.
    - rewrite !Marshal_loop_frame by (intros j tf held tag; apply Hfree; lia).
      unfold mid. apply Marshal_loop_frame.
      intros j tf held tag Hj Htag.
      assert (Hsame : later.*1 !! j = Some tf)
        by (rewrite <- Htype, list_lookup_fmap, Hj; done).
      rewrite list_lookup_fmap in Hsame.
      destruct (later !! j) as [[tf' held']|] eqn:Hj'; [|done].
      injection Hsame as ->. by apply (Hfree j tf held' tag); [lia|..]. }
  f_equal. f_equal; f_equal; apply map_eq; intros k.
  - exact (Hlook InLabels k).
  - exact (Hlook InAnnotations k).
Qed.

Lemma Marshal_replaces_earlier_witness :
  (Data 1 "John" 30 ["cooking"]).*1 = (Data 2 "Jane" 41 ["chess"; "go"]).*1
  /\ forall L : FloatConv,
       Marshal (Marshal no_metadata
                  (PointerTo (IsStruct (Data 1 "John" 30 ["cooking"]))) "prefix").1
           (PointerTo (IsStruct (Data 2 "Jane" 41 ["chess"; "go"]))) "prefix"
       = Marshal no_metadata
           (PointerTo (IsStruct (Data 2 "Jane" 41 ["chess"; "go"]))) "prefix".
Proof.
  split; [reflexivity|]. intros L.
  apply (Marshal_replaces_earlier no_metadata "prefix" (Data 1 "John" 30 ["cooking"])
           (Data 2 "Jane" 41 ["chess"; "go"])).
  reflexivity.
Defined.

(** ** Sequences of integers *)

Lemma mapM_pointwise {A B} (f g : A -> option B) (l : list A) :
  (forall x, f x = g x) -> mapM f l = mapM g l.
Proof.
  intros Hfg. induction l as [|x l IH]; [done|].
  simpl. by rewrite Hfg, IH.
Qed.

Lemma elementConv_integer `{FloatConv} (t : GoType) (signed : bool) (bits : Z) :
  integerSequence t = Some (signed, bits) ->
  exists conv : string -> option GoValue,
    elementConv t = Some conv /\ forall tok, conv tok = integerElement signed bits tok.
Proof.
  unfold integerSequence, elementConv.
  repeat case_bool_decide; subst; try done; intros [= <- <-];
    eexists; (split; [reflexivity|]); intros tok; unfold integerElement; simpl;
    rewrite ?ParseInt_spec, ?ParseUint_spec by lia;
    repeat case_match; done.
Qed.

(** A field of type [[]int], [[]int64], [[]uint] or [[]uint64] accepts exactly
    the texts whose pieces between the commas are all base-10 numbers (digits
    only for the unsigned types, an optional sign before them for the signed
    ones) that fit the width of the elements, [[]int] and [[]uint] counting as
    32 bits.  It then holds these numbers, in order.  Any other text, for
    instance one with a blank after a comma or with nothing between two
    commas, gives [ErrConversion] and leaves the field alone. *)
Theorem parseValue_integer_sequence `{FloatConv} (typeField : StructField)
    (held : GoValue) (value : string) (signed : bool) (bits : Z) :
  integerSequence (Typ typeField) = Some (signed, bits) ->
  parseValue typeField {| Type_of := Typ typeField; Holds := held |} value =
    match mapM (integerElement signed bits) (strings_Split value ",") with
    | Some elems => ({| Type_of := Typ typeField; Holds := VSlice elems |}, None)
    | None => ({| Type_of := Typ typeField; Holds := held |}, Some ErrConversion)
    end.
Proof.
  intros Hseq.
  destruct (elementConv_integer _ _ _ Hseq) as (conv & Hconv & Hspec).
  pose proof (elementConv_slice _ _ Hconv) as Hkind.
  unfold parseValue. rewrite Hkind, handleSlice_spec. simpl Type_of.
  rewrite Hconv. change (effectiveSeparator ",") with ",".
  rewrite (mapM_pointwise conv _ _ Hspec).
  by destruct (mapM _ _).
Qed.

Lemma parseValue_integer_sequence_witness :
  integerSequence sliceOfInts = Some (true, 32)
  /\ forall L : FloatConv,
       parseValue ports_field {| Type_of := sliceOfInts; Holds := VSlice [] |}
         "80,+443,-1"
       = ({| Type_of := sliceOfInts; Holds := VSlice [VInt 80; VInt 443; VInt (-1)] |},
          None)
       /\ parseValue ports_field {| Type_of := sliceOfInts; Holds := VSlice [] |}
            "80, 443"
          = ({| Type_of := sliceOfInts; Holds := VSlice [] |}, Some ErrConversion)
       /\ parseValue ports_field {| Type_of := sliceOfInts; Holds := VSlice [] |}
            "80,2147483648"
          = ({| Type_of := sliceOfInts; Holds := VSlice [] |}, Some ErrConversion).
Proof.
  split; [reflexivity|]. intros L.
  refine (conj _ (conj _ _)).
  - exact (eq_trans (parseValue_integer_sequence ports_field (VSlice []) "80,+443,-1"
                       true 32 eq_refl) eq_refl).
  - exact (eq_trans (parseValue_integer_sequence ports_field (VSlice []) "80, 443"
                       true 32 eq_refl) eq_refl).
  - exact (eq_trans (parseValue_integer_sequence ports_field (VSlice []) "80,2147483648"
                       true 32 eq_refl) eq_refl).
Defined.
